(** * Traffic-light detector node ([tl_detector.py]): model and properties

    A shallow embedding of the [TLDetector] ROS node.  The node stores the
    latest pose, route and light list, and on every camera image runs the
    frame gate, the stop-line scan, the classifier and the state-count
    filter, publishing a waypoint ordinal on [/traffic_waypoint].

    Conventions of the model
    - Python floats (coordinates, clock readings) are rationals [Q]; every
      finite float is one.  The one arithmetic operation on them, the
      subtraction of line 86, is the exact difference rounded to the nearest
      double ([float_sub]); comparisons of doubles are exact.
    - Python ints are [Z].
    - A callback is a function from the node's attributes to the new
      attributes, the effects it performed, and the exception it raised,
      if any.  Attribute writes made before an exception persist, as they
      do on the Python object.
    - [rospy] runs callbacks to completion one after the other; an
      exception in a callback is logged and the node keeps spinning. *)

From Stdlib Require Import ZArith QArith List Bool Lia.
Import ListNotations.
Local Open Scope Z_scope.

(** ** Python values that flow through [self.state] *)

(** [get_light_state] returns either the classifier's int or the boolean
    [False].  Python compares the two numerically ([False == 0]). *)
Inductive pyval : Type :=
| PyBool (b : bool)
| PyInt (z : Z).

Definition py_num (v : pyval) : Z :=
  match v with
  | PyBool true => 1
  | PyBool false => 0
  | PyInt z => z
  end.

(** Python [a == b] on these values. *)
Definition py_eq (a b : pyval) : bool := py_num a =? py_num b.

(** Exceptions the callbacks can raise. *)
Inductive exn : Type :=
| IndexError      (* list index out of range *)
| ValueError      (* KDTree over an empty point set *)
| AttributeError. (* attribute access on None *)

(** ** Messages and configuration *)

Definition point : Type := (Q * Q)%type.

(** [geometry_msgs/PoseStamped], read as [msg.pose.position.x / .y]. *)
Record PoseStamped : Type := { position_x : Q; position_y : Q }.

(** One entry of [Lane.waypoints], read as [wpt.pose.pose.position.x / .y]. *)
Record Waypoint : Type := { wpt_x : Q; wpt_y : Q }.

(** [styx_msgs/Lane]. *)
Record Lane : Type := { lane_waypoints : list Waypoint }.

(** One entry of [TrafficLightArray.lights].  The node never reads its
    fields; it only counts the entries and passes one on. *)
Record TrafficLightMsg : Type := { light_x : Q; light_y : Q; light_state : Z }.

(** The loaded [/traffic_light_config], a mapping that has the key
    [stop_line_positions]; its value is a list of stop lines, each a list
    of coordinates as YAML gives it, normally [[x, y]].  A mapping without
    the key is outside this model: line 157 would raise [KeyError] on
    every tick that passes the frame gate. *)
Record Config : Type := { stop_line_positions : list (list Q) }.

(** ** [scipy.spatial.KDTree] *)

(** The tree is represented by the point set it was built from. *)
Record KDTree : Type := { data : list point }.

(** [KDTree(points)]: scipy rejects an empty point set. *)
Definition KDTree_new (pts : list point) : exn + KDTree :=
  match pts with
  | [] => inl ValueError
  | _ :: _ => inr {| data := pts |}
  end.

(** ** External collaborators

    What the node consumes but does not define: the camera image type, the
    classifier ([TLClassifier.get_classification] after the [cv_bridge]
    conversion), the nearest-neighbour query of the k-d tree
    ([tree.query([x, y], 1)[1]]), and the two [styx_msgs/TrafficLight]
    constants the node mentions. *)
Class External : Type := {
  Image : Type;
  get_classification : Image -> Z;
  KDTree_query : list point -> Q -> Q -> Z;
  RED : Z;
  UNKNOWN : Z
}.

(** ** Module constants *)

Definition STATE_COUNT_THRESHOLD : Z := 3.
Definition CAMERA_IMG_PROCESS_RATE : Q := 1 # 2.
Definition WAYPOINT_DIFFERENCE : Z := 300.

(** Python [a < b] on clock readings. *)
Definition Qlt_bool (a b : Q) : bool := negb (Qle_bool b a).

(** ** Double-precision subtraction

    A finite double is an integer multiple of [2^-1074]; around a value
    whose scaled magnitude has [e] as the position of its leading bit the
    doubles are [2^(e - 52)] units apart (one unit below the normal
    range).  Arithmetic on doubles returns the double nearest to the exact
    result, ties going to the even significand.  Overflow past the largest
    double is not modelled; clock readings are far from it. *)

Definition double_scale_pos : positive := (2 ^ 1074)%positive.
Definition double_scale : Z := Zpos double_scale_pos.

(** The integer nearest to [num / den], for [den > 0]; ties to even. *)
Definition round_half_even (num den : Z) : Z :=
  let q := num / den in
  let r := num mod den in
  match 2 * r ?= den with
  | Lt => q
  | Gt => q + 1
  | Eq => if Z.even q then q else q + 1
  end.

(** The double nearest to [n / d], for [n >= 0] and [d > 0], in units of
    [2^-1074]. *)
Definition round_double_pos (n d : Z) : Z :=
  let N := (n * double_scale) / d in
  let s := Z.max 0 (Z.log2 N - 52) in
  round_half_even (n * double_scale) (d * 2 ^ s) * 2 ^ s.

(** The double nearest to a rational. *)
Definition round_double (x : Q) : Q :=
  let x := Qred x in
  let n := Qnum x in
  let d := Zpos (Qden x) in
  if 0 <=? n then Qmake (round_double_pos n d) double_scale_pos
  else Qmake (- round_double_pos (- n) d) double_scale_pos.

(** Python [a - b] on floats. *)
Definition float_sub (a b : Q) : Q := round_double (a - b).

Section Node.
Context {E : External}.

(** ** The node's attributes

    [prev_light_loc] does not exist until [get_light_state] creates it
    (with value [None]); [None] here is "no such attribute" and [Some tt]
    is "attribute holding None". *)
Record TLDetector : Type := mkTLDetector {
  pose : option PoseStamped;
  waypoints : option Lane;
  camera_image : option Image;
  lights : list TrafficLightMsg;
  waypoints_2d : option (list point);
  waypoint_tree : option KDTree;
  config : Config;
  last_state : pyval;
  last_light_state : option pyval;
  last_wp : Z;
  state_count : Z;
  has_image : bool;
  state : pyval;
  last_img_processed : Q;
  prev_light_loc : option unit
}.

Definition set_pose (self : TLDetector) (v : option PoseStamped) : TLDetector :=
  mkTLDetector v (waypoints self) (camera_image self) (lights self)
    (waypoints_2d self) (waypoint_tree self) (config self) (last_state self)
    (last_light_state self) (last_wp self) (state_count self) (has_image self)
    (state self) (last_img_processed self) (prev_light_loc self).

Definition set_waypoints (self : TLDetector) (v : option Lane) : TLDetector :=
  mkTLDetector (pose self) v (camera_image self) (lights self) (waypoints_2d
    self) (waypoint_tree self) (config self) (last_state self)
    (last_light_state self) (last_wp self) (state_count self) (has_image self)
    (state self) (last_img_processed self) (prev_light_loc self).

Definition set_camera_image (self : TLDetector) (v : option Image) : TLDetector :=
  mkTLDetector (pose self) (waypoints self) v (lights self) (waypoints_2d
    self) (waypoint_tree self) (config self) (last_state self)
    (last_light_state self) (last_wp self) (state_count self) (has_image self)
    (state self) (last_img_processed self) (prev_light_loc self).

Definition set_lights (self : TLDetector) (v : list TrafficLightMsg) : TLDetector :=
  mkTLDetector (pose self) (waypoints self) (camera_image self) v
    (waypoints_2d self) (waypoint_tree self) (config self) (last_state self)
    (last_light_state self) (last_wp self) (state_count self) (has_image self)
    (state self) (last_img_processed self) (prev_light_loc self).

Definition set_waypoints_2d (self : TLDetector) (v : option (list point)) : TLDetector :=
  mkTLDetector (pose self) (waypoints self) (camera_image self) (lights
    self) v (waypoint_tree self) (config self) (last_state self)
    (last_light_state self) (last_wp self) (state_count self) (has_image self)
    (state self) (last_img_processed self) (prev_light_loc self).

Definition set_waypoint_tree (self : TLDetector) (v : option KDTree) : TLDetector :=
  mkTLDetector (pose self) (waypoints self) (camera_image self) (lights
    self) (waypoints_2d self) v (config self) (last_state self)
    (last_light_state self) (last_wp self) (state_count self) (has_image self)
    (state self) (last_img_processed self) (prev_light_loc self).

Definition set_last_state (self : TLDetector) (v : pyval) : TLDetector :=
  mkTLDetector (pose self) (waypoints self) (camera_image self) (lights
    self) (waypoints_2d self) (waypoint_tree self) (config self) v
    (last_light_state self) (last_wp self) (state_count self) (has_image self)
    (state self) (last_img_processed self) (prev_light_loc self).

Definition set_last_light_state (self : TLDetector) (v : option pyval) : TLDetector :=
  mkTLDetector (pose self) (waypoints self) (camera_image self) (lights
    self) (waypoints_2d self) (waypoint_tree self) (config self) (last_state
    self) v (last_wp self) (state_count self) (has_image self) (state self)
    (last_img_processed self) (prev_light_loc self).

Definition set_last_wp (self : TLDetector) (v : Z) : TLDetector :=
  mkTLDetector (pose self) (waypoints self) (camera_image self) (lights
    self) (waypoints_2d self) (waypoint_tree self) (config self) (last_state
    self) (last_light_state self) v (state_count self) (has_image self) (state
    self) (last_img_processed self) (prev_light_loc self).

Definition set_state_count (self : TLDetector) (v : Z) : TLDetector :=
  mkTLDetector (pose self) (waypoints self) (camera_image self) (lights
    self) (waypoints_2d self) (waypoint_tree self) (config self) (last_state
    self) (last_light_state self) (last_wp self) v (has_image self) (state
    self) (last_img_processed self) (prev_light_loc self).

Definition set_has_image (self : TLDetector) (v : bool) : TLDetector :=
  mkTLDetector (pose self) (waypoints self) (camera_image self) (lights
    self) (waypoints_2d self) (waypoint_tree self) (config self) (last_state
    self) (last_light_state self) (last_wp self) (state_count self) v (state
    self) (last_img_processed self) (prev_light_loc self).

Definition set_state (self : TLDetector) (v : pyval) : TLDetector :=
  mkTLDetector (pose self) (waypoints self) (camera_image self) (lights
    self) (waypoints_2d self) (waypoint_tree self) (config self) (last_state
    self) (last_light_state self) (last_wp self) (state_count self) (has_image
    self) v (last_img_processed self) (prev_light_loc self).

Definition set_last_img_processed (self : TLDetector) (v : Q) : TLDetector :=
  mkTLDetector (pose self) (waypoints self) (camera_image self) (lights
    self) (waypoints_2d self) (waypoint_tree self) (config self) (last_state
    self) (last_light_state self) (last_wp self) (state_count self) (has_image
    self) (state self) v (prev_light_loc self).

Definition set_prev_light_loc (self : TLDetector) (v : option unit) : TLDetector :=
  mkTLDetector (pose self) (waypoints self) (camera_image self) (lights
    self) (waypoints_2d self) (waypoint_tree self) (config self) (last_state
    self) (last_light_state self) (last_wp self) (state_count self) (has_image
    self) (state self) (last_img_processed self) v.


(** What a callback does to the outside world.  [rospy.loginfo] lines are
    not recorded. *)
Inductive effect : Type :=
| Publish (v : Z)         (* upcoming_red_light_pub.publish(Int32(v)) *)
| Classify (img : Image). (* light_classifier.get_classification(img) *)

Record CbResult : Type := {
  st : TLDetector;
  trace : list effect;
  raised : option exn
}.

Definition done (self : TLDetector) : CbResult :=
  {| st := self; trace := []; raised := None |}.

(** [__init__], lines 24-59, given the configuration that [yaml.load]
    produced.  It performs no check on the configuration. *)
Definition init_state (cfg : Config) : TLDetector :=
  {| pose := None; waypoints := None; camera_image := None; lights := [];
     waypoints_2d := None; waypoint_tree := None; config := cfg;
     last_state := PyInt UNKNOWN; last_light_state := None; last_wp := -1;
     state_count := 0; has_image := false; state := PyInt UNKNOWN;
     last_img_processed := 0%Q; prev_light_loc := None |}.

Definition TLDetector_init (cfg : Config) : exn + TLDetector :=
  inr (init_state cfg).

(** ** Callbacks that only store *)

Definition pose_cb (self : TLDetector) (msg : PoseStamped) : CbResult :=
  done (set_pose self (Some msg)).

Definition traffic_cb (self : TLDetector) (msg : list TrafficLightMsg) : CbResult :=
  done (set_lights self msg).

(** Python truthiness of [self.waypoints_2d]: [None] and [[]] are false. *)
Definition truthy_list {A : Type} (o : option (list A)) : bool :=
  match o with
  | Some (_ :: _) => true
  | _ => false
  end.

(** [waypoints_cb], lines 66-71. *)
Definition waypoints_cb (self : TLDetector) (wps : Lane) : CbResult :=
  let self := set_waypoints self (Some wps) in
  if negb (truthy_list (waypoints_2d self)) then
    let pts := map (fun wpt => (wpt_x wpt, wpt_y wpt)) (lane_waypoints wps) in
    let self := set_waypoints_2d self (Some pts) in
    match KDTree_new pts with
    | inl e => {| st := self; trace := []; raised := Some e |}
    | inr tree => done (set_waypoint_tree self (Some tree))
    end
  else done self.

(** ** Nearest waypoint *)

(** [get_closest_waypoint], lines 115-125, on a built tree. *)
Definition get_closest_waypoint (tree : KDTree) (x y : Q) : Z :=
  KDTree_query (data tree) x y.

(** ** Classification *)

(** [get_light_state], lines 127-143. *)
Definition get_light_state (self : TLDetector) (light : TrafficLightMsg)
  : TLDetector * list effect * (exn + pyval) :=
  if negb (has_image self) then
    (set_prev_light_loc self (Some tt), [], inr (PyBool false))
  else
    match camera_image self with
    | None => (self, [], inl AttributeError)
    | Some img =>
        let result := PyInt (get_classification img) in
        let differs :=
          match last_light_state self with
          | None => true
          | Some v => negb (py_eq v result)
          end in
        let self := if differs then set_last_light_state self (Some result)
                    else self in
        (self, [Classify img], inr result)
    end.

(** ** Stop-line scan *)

(** The three locals the loop of [process_traffic_lights] updates. *)
Record Scan : Type := {
  diff : Z;
  closest_light : option TrafficLightMsg;
  line_wp_idx : option Z
}.

(** One iteration of the loop body, lines 166-171, for a stop line that
    projects to [temp_wp_idx]. *)
Definition scan_step (car_wp_idx : Z) (acc : Scan) (light : TrafficLightMsg)
  (temp_wp_idx : Z) : Scan :=
  let d := temp_wp_idx - car_wp_idx in
  if (0 <=? d) && (d <? diff acc) then
    {| diff := d; closest_light := Some light; line_wp_idx := Some temp_wp_idx |}
  else acc.

(** Line 166, [self.get_closest_waypoint (line[0], line[1])]: the ordinal
    a stop line projects to.  [None] stands for the [IndexError] of
    [line[0]] or [line[1]] on a stop line with fewer than two coordinates. *)
Definition stop_ordinal (tree : KDTree) (line : list Q) : option Z :=
  match nth_error line 0, nth_error line 1 with
  | Some x, Some y => Some (get_closest_waypoint tree x y)
  | _, _ => None
  end.

(** [for i, light in enumerate(self.lights)], lines 163-171.
    [stop_line_positions[i]] raises when [i] is past the end, and so do
    [line[0]] and [line[1]] on a short stop line. *)
Fixpoint scan_lights (tree : KDTree) (stop_lines : list (list Q))
  (car_wp_idx : Z) (i : nat) (ls : list TrafficLightMsg) (acc : Scan)
  : exn + Scan :=
  match ls with
  | [] => inr acc
  | light :: rest =>
      match nth_error stop_lines i with
      | None => inl IndexError
      | Some line =>
          match stop_ordinal tree line with
          | None => inl IndexError
          | Some temp_wp_idx =>
              scan_lights tree stop_lines car_wp_idx (S i) rest
                (scan_step car_wp_idx acc light temp_wp_idx)
          end
      end
  end.

(** Lines 162-174: the scan started at [diff = n_waypoints], followed by
    the horizon test.  The source fixes [horizon] to [WAYPOINT_DIFFERENCE]. *)
Definition locate (horizon : Z) (tree : KDTree) (stop_lines : list (list Q))
  (ls : list TrafficLightMsg) (n_waypoints : Z) (car_wp_idx : Z)
  : exn + option (Z * TrafficLightMsg) :=
  match scan_lights tree stop_lines car_wp_idx 0 ls
          {| diff := n_waypoints; closest_light := None; line_wp_idx := None |} with
  | inl e => inl e
  | inr sc =>
      match closest_light sc, line_wp_idx sc with
      | Some light, Some idx =>
          if idx - car_wp_idx <=? horizon then inr (Some (idx, light))
          else inr None
      | _, _ => inr None
      end
  end.

(** [process_traffic_lights], lines 146-178. *)
Definition process_traffic_lights (self : TLDetector)
  : TLDetector * list effect * (exn + Z * pyval) :=
  let no_light := (self, [], inr (-1, PyInt UNKNOWN)) in
  match pose self, waypoint_tree self with
  | Some p, Some tree =>
      let car_wp_idx := get_closest_waypoint tree (position_x p) (position_y p) in
      match waypoints self with
      | None => (self, [], inl AttributeError)
      | Some lane =>
          let n := Z.of_nat (length (lane_waypoints lane)) in
          match locate WAYPOINT_DIFFERENCE tree (stop_line_positions (config self))
                  (lights self) n car_wp_idx with
          | inl e => (self, [], inl e)
          | inr None => no_light
          | inr (Some (idx, light)) =>
              match get_light_state self light with
              | (self', tr, inl e) => (self', tr, inl e)
              | (self', tr, inr v) => (self', tr, inr (idx, v))
              end
          end
      end
  | _, _ => no_light
  end.

(** ** The image callback *)

(** Lines 90-94: the frame is taken; [now] is the second clock reading. *)
Definition accept_frame (self : TLDetector) (msg : Image) (now : Q) : TLDetector :=
  set_last_img_processed
    (set_camera_image (set_has_image self true) (Some msg)) now.

(** Line 113. *)
Definition bump (self : TLDetector) : TLDetector :=
  set_state_count self (state_count self + 1).

(** Lines 103-113: the state-count filter. *)
Definition debounce (self : TLDetector) (light_wp : Z) (new_state : pyval)
  : TLDetector * list effect :=
  if negb (py_eq (state self) new_state) then
    (bump (set_state (set_state_count self 0) new_state), [])
  else if STATE_COUNT_THRESHOLD <=? state_count self then
    let self := set_last_state self (state self) in
    let light_wp := if py_eq new_state (PyInt RED) then light_wp else -1 in
    let self := set_last_wp self light_wp in
    (bump self, [Publish light_wp])
  else
    (bump self, [Publish (last_wp self)]).

(** [image_cb], lines 77-113.  [t1] and [t2] are what the two calls of
    [timer()] return (lines 86 and 94). *)
Definition image_cb (self : TLDetector) (msg : Image) (t1 t2 : Q) : CbResult :=
  match waypoint_tree self with
  | None => done self
  | Some _ =>
      let time_elapsed := float_sub t1 (last_img_processed self) in
      if Qlt_bool time_elapsed CAMERA_IMG_PROCESS_RATE then done self
      else
        match process_traffic_lights (accept_frame self msg t2) with
        | (self, tr, inl e) => {| st := self; trace := tr; raised := Some e |}
        | (self, tr, inr (light_wp, new_state)) =>
            let (self, tr') := debounce self light_wp new_state in
            {| st := self; trace := tr ++ tr'; raised := None |}
        end
  end.

(** ** The node as a reactive system *)

Inductive event : Type :=
| PoseEv (msg : PoseStamped)
| WaypointsEv (msg : Lane)
| TrafficEv (msg : list TrafficLightMsg)
| ImageEv (msg : Image) (t1 t2 : Q).

Definition dispatch (self : TLDetector) (e : event) : CbResult :=
  match e with
  | PoseEv msg => pose_cb self msg
  | WaypointsEv msg => waypoints_cb self msg
  | TrafficEv msg => traffic_cb self msg
  | ImageEv msg t1 t2 => image_cb self msg t1 t2
  end.

(** The attributes after a sequence of deliveries. *)
Fixpoint run (self : TLDetector) (es : list event) : TLDetector :=
  match es with
  | [] => self
  | e :: es => run (st (dispatch self e)) es
  end.

(** Everything the node did to the outside during a sequence of deliveries. *)
Fixpoint run_trace (self : TLDetector) (es : list event) : list effect :=
  match es with
  | [] => []
  | e :: es => trace (dispatch self e) ++ run_trace (st (dispatch self e)) es
  end.

(** The values published during a piece of trace. *)
Fixpoint published (tr : list effect) : list Z :=
  match tr with
  | [] => []
  | Publish v :: tr => v :: published tr
  | Classify _ :: tr => published tr
  end.

(** The images classified during a piece of trace. *)
Fixpoint classified (tr : list effect) : list Image :=
  match tr with
  | [] => []
  | Publish _ :: tr => classified tr
  | Classify img :: tr => img :: classified tr
  end.

(** ** Vocabulary for the scan *)

(** The (light, stop-line ordinal) pairs the loop goes through, in order:
    light [i] with the projection of stop line [i].  [None] when one of
    the index operations of lines 165-166 fails. *)
Fixpoint visited_pairs (tree : KDTree) (stop_lines : list (list Q)) (i : nat)
  (ls : list TrafficLightMsg) : option (list (TrafficLightMsg * Z)) :=
  match ls with
  | [] => Some []
  | light :: rest =>
      match nth_error stop_lines i with
      | None => None
      | Some line =>
          match stop_ordinal tree line with
          | None => None
          | Some W =>
              match visited_pairs tree stop_lines (S i) rest with
              | None => None
              | Some pairs => Some ((light, W) :: pairs)
              end
          end
      end
  end.

(** What the loop knows after the (light, ordinal) pairs [seen], for a
    vehicle at ordinal [V] and initial bound [n]: either nothing was kept
    and no pair is ahead by less than [n], or the kept pair is one of
    [seen], is ahead by less than [n], and no pair ahead is nearer. *)
Definition scan_inv (n V : Z) (seen : list (TrafficLightMsg * Z)) (acc : Scan)
  : Prop :=
  match closest_light acc, line_wp_idx acc with
  | None, None =>
      diff acc = n /\
      forall p, In p seen -> snd p - V < 0 \/ n <= snd p - V
  | Some light, Some idx =>
      In (light, idx) seen /\ diff acc = idx - V /\
      0 <= idx - V /\ idx - V < n /\
      forall p, In p seen -> 0 <= snd p - V -> idx - V <= snd p - V
  | _, _ => False
  end.

(** ** Vocabulary for whole runs *)

(** The state-count filter over successive ticks: lines 103-113 applied to
    a sequence of (candidate waypoint, label) pairs. *)
Fixpoint feed (self : TLDetector) (obs : list (Z * pyval))
  : TLDetector * list effect :=
  match obs with
  | [] => (self, [])
  | (w, v) :: obs =>
      let (s, tr) := debounce self w v in
      let (s', tr') := feed s obs in
      (s', tr ++ tr')
  end.

(** What each tick of [feed] does to the outside, tick by tick. *)
Fixpoint feed_ticks (self : TLDetector) (obs : list (Z * pyval))
  : list (list effect) :=
  match obs with
  | [] => []
  | (w, v) :: obs =>
      snd (debounce self w v) :: feed_ticks (fst (debounce self w v)) obs
  end.

Definition is_image (e : event) : bool :=
  match e with
  | ImageEv _ _ _ => true
  | _ => false
  end.

(** What the loop's locals say about the lights [all] it runs over: a
    kept light sits at some position [j], the kept ordinal is the one of
    the stop line at the same position, and that ordinal is ahead of the
    vehicle by [diff], which is below the initial bound [n]. *)
Definition scan_sound (tree : KDTree) (stops : list (list Q))
  (all : list TrafficLightMsg) (n V : Z) (acc : Scan) : Prop :=
  match closest_light acc, line_wp_idx acc with
  | None, None => True
  | Some light, Some idx =>
      exists j line,
        nth_error all j = Some light /\ nth_error stops j = Some line /\
        stop_ordinal tree line = Some idx /\ diff acc = idx - V /\
        0 <= idx - V /\ idx - V < n
  | _, _ => False
  end.

(** The route attributes fit together: once the tree exists, it holds the
    points of [waypoints_2d], there is at least one, and a route message
    is stored. *)
Definition route_consistent (self : TLDetector) : Prop :=
  match waypoint_tree self with
  | None => True
  | Some tree =>
      waypoints_2d self = Some (data tree) /\ data tree <> [] /\
      waypoints self <> None
  end.

(** The four attributes the state-count filter reads and writes. *)
Definition filter_fields (self : TLDetector) : pyval * Z * pyval * Z :=
  (state self, state_count self, last_state self, last_wp self).

(** Pose and route are known and the scan of lines 159-174 finds the stop
    line at ordinal [idx] within the horizon. *)
Definition located (self : TLDetector) (idx : Z) : Prop :=
  exists tree p lane light,
    waypoint_tree self = Some tree /\ pose self = Some p /\
    waypoints self = Some lane /\
    locate WAYPOINT_DIFFERENCE tree (stop_line_positions (config self))
      (lights self) (Z.of_nat (length (lane_waypoints lane)))
      (get_closest_waypoint tree (position_x p) (position_y p))
    = inr (Some (idx, light)).

(** A frame as delivered: the image and the two clock readings. *)
Definition frame_event (f : Image * Q * Q) : event :=
  ImageEv (fst (fst f)) (snd (fst f)) (snd f).

(** Every frame of the sequence passes the frame gate, given that the
    gate last moved at [last]. *)
Fixpoint gate_open_for (last : Q) (fs : list (Image * Q * Q)) : Prop :=
  match fs with
  | [] => True
  | f :: fs =>
      (CAMERA_IMG_PROCESS_RATE <= snd (fst f) - last)%Q /\
      gate_open_for (snd f) fs
  end.

End Node.

(** ** Stand-ins for the collaborators, for concrete runs *)

Module Sim.

(** Squared distance from a stored point to the query. *)
Definition dist2 (p : point) (x y : Q) : Q :=
  ((fst p - x) * (fst p - x) + (snd p - y) * (snd p - y))%Q.

Fixpoint nearest_from (pts : list point) (x y : Q) (i best : Z) (bestd : Q) : Z :=
  match pts with
  | [] => best
  | p :: rest =>
      if Qlt_bool (dist2 p x y) bestd
      then nearest_from rest x y (i + 1) i (dist2 p x y)
      else nearest_from rest x y (i + 1) best bestd
  end.

(** Exhaustive nearest-neighbour search, standing in for the k-d tree. *)
Definition exhaustive_query (pts : list point) (x y : Q) : Z :=
  match pts with
  | [] => 0
  | p :: rest => nearest_from rest x y 1 0 (dist2 p x y)
  end.

(** An image is represented by the label the classifier gives it; the
    constants are those of the [styx_msgs/TrafficLight] message. *)
Definition ext : External :=
  {| Image := Z;
     get_classification := fun img => img;
     KDTree_query := exhaustive_query;
     RED := 0;
     UNKNOWN := 4 |}.

Definition wp (x : Z) : Waypoint := {| wpt_x := inject_Z x; wpt_y := 0 |}.

(** A straight route of ten waypoints, one unit apart. *)
Definition route10 : Lane :=
  {| lane_waypoints := map wp [0; 1; 2; 3; 4; 5; 6; 7; 8; 9] |}.

(** A shorter route. *)
Definition route3 : Lane := {| lane_waypoints := map wp [0; 1; 2] |}.

Definition light1 : TrafficLightMsg :=
  {| light_x := 6; light_y := 0; light_state := 0 |}.

(** One stop line, next to waypoint 5. *)
Definition cfg1 : Config := {| stop_line_positions := [[5; 0]%Q] |}.

(** No stop line at all. *)
Definition cfg0 : Config := {| stop_line_positions := [] |}.

(** The vehicle next to waypoint 2. *)
Definition pose2 : PoseStamped := {| position_x := 2; position_y := 0 |}.

(** Route, pose and lights delivered; no image yet. *)
Definition ready : list (@event ext) :=
  [WaypointsEv route10; PoseEv pose2; TrafficEv [light1]].

(** An image with classifier label [label], delivered when the clock reads
    [t] (both readings). *)
Definition frame (label : Z) (t : Q) : @event ext := ImageEv (label : @Image ext) t t.

(** Four images classified red, one second apart. *)
Definition four_red : list (@event ext) :=
  [frame 0 1; frame 0 2; frame 0 3; frame 0 4].

(** The node after the route alone has been delivered. *)
Definition routed : @TLDetector ext :=
  run (init_state cfg1) [WaypointsEv route10].

(** The node after route, pose and lights; the stop line is 3 waypoints
    ahead of the vehicle. *)
Definition driving : @TLDetector ext := run (init_state cfg1) ready.

(** The same deliveries under the configuration without stop lines. *)
Definition driving0 : @TLDetector ext := run (init_state cfg0) ready.

(** The tree these nodes hold. *)
Definition tree10 : KDTree :=
  {| data := map (fun w => (wpt_x w, wpt_y w)) (lane_waypoints route10) |}.

(** A route message without waypoints. *)
Definition route0 : Lane := {| lane_waypoints := [] |}.

(** Four frames classified red, as (image, reading, reading) triples. *)
Definition red_frames : list (@Image ext * Q * Q) :=
  [(0%Z, 1%Q, 1%Q); (0%Z, 2%Q, 2%Q); (0%Z, 3%Q, 3%Q); (0%Z, 4%Q, 4%Q)].

(** Deliveries that build no index: a pose, an empty route, a light list
    and an image. *)
Definition idle : list (@event ext) :=
  [PoseEv pose2; WaypointsEv route0; TrafficEv [light1]; frame 0 1].

(** One stop line with a single coordinate. *)
Definition cfg_short : Config := {| stop_line_positions := [[5]%Q] |}.

(** Route, pose and lights delivered under that configuration. *)
Definition driving_short : @TLDetector ext := run (init_state cfg_short) ready.

(** Two stop lines, the farther one listed first. *)
Definition two_stops : list (list Q) := [[8; 0]; [5; 0]]%Q.

(** The double [0.0625 + 2^-56]. *)
Definition edge_reading : Q := (1 # 16) + (1 # 72057594037927936).

(** The routed node with the frame gate last moved at [edge_reading]. *)
Definition routed_edge : @TLDetector ext :=
  set_last_img_processed routed edge_reading.

End Sim.

(** * Properties *)

Section Properties.
Context {E : External}.

(** ** Clock comparisons *)

Lemma Qlt_bool_true (a b : Q) : Qlt_bool a b = true <-> (a < b)%Q.
Proof.
  unfold Qlt_bool. rewrite negb_true_iff. split.
  - intros H. apply Qnot_le_lt. intros Hle.
    apply Qle_bool_iff in Hle. congruence.
  - intros H. destruct (Qle_bool b a) eqn:Hb; [|reflexivity].
    apply Qle_bool_iff in Hb. exfalso. exact (Qlt_not_le _ _ H Hb).
Qed.

Lemma Qlt_bool_false (a b : Q) : Qlt_bool a b = false <-> (b <= a)%Q.
Proof.
  unfold Qlt_bool. rewrite negb_false_iff. apply Qle_bool_iff.
Qed.

(** ** Rounding to a double *)

Lemma double_scale_pow : double_scale = 2 ^ 1074.
Proof.
  unfold double_scale, double_scale_pos. rewrite Pos2Z.inj_pow. reflexivity.
Qed.

Lemma round_half_even_ge (num den : Z) : num / den <= round_half_even num den.
Proof.
  unfold round_half_even.
  destruct (2 * (num mod den) ?= den); [|lia|lia].
  destruct (Z.even (num / den)); lia.
Qed.

(** A value of at least [2^e] units, [e] in the normal range, rounds to at
    least [2^e] units. *)
Lemma round_double_pos_ge (n d e : Z) :
  0 < d -> 52 <= e -> d * 2 ^ e <= n * double_scale ->
  2 ^ e <= round_double_pos n d.
Proof.
  intros Hd He Hn. unfold round_double_pos.
  set (X := n * double_scale) in *.
  set (N := X / d).
  assert (HN : 2 ^ e <= N).
  { unfold N. apply Z.div_le_lower_bound; [exact Hd | exact Hn]. }
  assert (Hpos : 0 < 2 ^ e) by (apply Z.pow_pos_nonneg; lia).
  assert (HN0 : 0 < N) by lia.
  assert (Hlog : e <= Z.log2 N).
  { rewrite <- (Z.log2_pow2 e) by lia. apply Z.log2_le_mono. exact HN. }
  set (e' := Z.log2 N) in *.
  rewrite Z.max_r by lia.
  set (s := e' - 52).
  assert (Hs : 0 <= s) by (unfold s; lia).
  assert (H2s : 0 < 2 ^ s) by (apply Z.pow_pos_nonneg; lia).
  assert (Hm : 2 ^ 52 <= round_half_even X (d * 2 ^ s)).
  { eapply Z.le_trans; [|apply round_half_even_ge].
    rewrite <- Z.div_div by lia. fold N.
    apply Z.div_le_lower_bound; [exact H2s|].
    rewrite <- Z.pow_add_r by lia.
    replace (s + 52) with e' by (unfold s; lia).
    unfold e'. apply Z.log2_spec. exact HN0. }
  apply Z.le_trans with (2 ^ e').
  - apply Z.pow_le_mono_r; lia.
  - replace e' with (52 + s) at 1 by (unfold s; lia).
    rewrite Z.pow_add_r by lia.
    apply Z.mul_le_mono_nonneg_r; [lia | exact Hm].
Qed.

(** Rounding never takes a value of [1/2] or more to below [1/2]. *)
Lemma round_double_half (x : Q) : (1 # 2 <= x)%Q -> (1 # 2 <= round_double x)%Q.
Proof.
  intros Hx. rewrite <- (Qred_correct x) in Hx.
  unfold round_double.
  destruct (Qred x) as [n d]. unfold Qle in Hx. simpl in Hx.
  simpl Qnum. simpl Qden.
  assert (Hn : 0 <= n) by lia.
  apply Z.leb_le in Hn. rewrite Hn. apply Z.leb_le in Hn.
  unfold Qle. simpl Qnum. simpl Qden.
  change (Z.pos double_scale_pos) with double_scale.
  assert (H : 2 ^ 1073 <= round_double_pos n (Z.pos d)).
  { apply round_double_pos_ge; [reflexivity | lia |].
    rewrite double_scale_pow.
    replace (2 ^ 1074) with (2 * 2 ^ 1073)
      by (rewrite <- Z.pow_succ_r by lia; reflexivity).
    assert (0 < 2 ^ 1073) by (apply Z.pow_pos_nonneg; lia). nia. }
  rewrite double_scale_pow.
  replace (2 ^ 1074) with (2 * 2 ^ 1073)
    by (rewrite <- Z.pow_succ_r by lia; reflexivity).
  lia.
Qed.

(** Rounding depends on the value only, not on how the fraction is
    written. *)
Lemma round_double_proper (x y : Q) :
  (x == y)%Q -> round_double x = round_double y.
Proof.
  intros H. unfold round_double. rewrite (Qred_complete x y H). reflexivity.
Qed.

(** If the exact difference reaches the rate, so does the rounded one. *)
Lemma float_sub_rate (a b : Q) :
  (CAMERA_IMG_PROCESS_RATE <= a - b)%Q ->
  (CAMERA_IMG_PROCESS_RATE <= float_sub a b)%Q.
Proof. apply round_double_half. Qed.

(** Subtracting zero from a double gives the double back. *)
Lemma float_sub_zero (a : Q) :
  (round_double a == a)%Q -> (float_sub a 0 == a)%Q.
Proof.
  intros Ha. unfold float_sub.
  rewrite (round_double_proper (a - 0) a); [exact Ha|].
  unfold Qminus. simpl Qopp. apply Qplus_0_r.
Qed.

(** ** Python equality *)

Lemma py_eq_refl (v : pyval) : py_eq v v = true.
Proof. unfold py_eq. apply Z.eqb_refl. Qed.

Lemma py_eq_trans (a b c : pyval) :
  py_eq a b = true -> py_eq b c = true -> py_eq a c = true.
Proof. unfold py_eq. rewrite !Z.eqb_eq. congruence. Qed.

(** ** The three branches of the state-count filter *)

Lemma debounce_change (self : TLDetector) (w : Z) (v : pyval) :
  py_eq (state self) v = false ->
  debounce self w v = (bump (set_state (set_state_count self 0) v), []).
Proof. intros H. unfold debounce. rewrite H. reflexivity. Qed.

Lemma debounce_below (self : TLDetector) (w : Z) (v : pyval) :
  py_eq (state self) v = true ->
  state_count self < STATE_COUNT_THRESHOLD ->
  debounce self w v = (bump self, [Publish (last_wp self)]).
Proof.
  intros H Hc. unfold debounce. rewrite H. simpl negb. cbv iota.
  destruct (STATE_COUNT_THRESHOLD <=? state_count self) eqn:Hle.
  - apply Z.leb_le in Hle. lia.
  - reflexivity.
Qed.

Lemma debounce_commit (self : TLDetector) (w : Z) (v : pyval) :
  py_eq (state self) v = true ->
  STATE_COUNT_THRESHOLD <= state_count self ->
  debounce self w v =
    let w' := if py_eq v (PyInt RED) then w else -1 in
    (bump (set_last_wp (set_last_state self (state self)) w'), [Publish w']).
Proof.
  intros H Hc. unfold debounce. rewrite H. simpl negb. cbv iota.
  apply Z.leb_le in Hc. rewrite Hc. reflexivity.
Qed.

(** The filter publishes at most one value. *)
Lemma debounce_trace (self : TLDetector) (w : Z) (v : pyval) :
  snd (debounce self w v) = [] \/ exists x, snd (debounce self w v) = [Publish x].
Proof.
  unfold debounce. destruct (negb (py_eq (state self) v)); [left; reflexivity|].
  destruct (STATE_COUNT_THRESHOLD <=? state_count self); right; eexists; reflexivity.
Qed.

(** ** C1: four consecutive reds are needed *)

(** C1 (as the code has it).  From any detector whose pending state is not
    red (the freshly started one, in particular), feeding red four times
    in a row: the second and third observations republish the waypoint
    published before and leave the committed state alone; the fourth
    commits red and publishes that observation's candidate waypoint. *)
Theorem red_commits_on_fourth_observation
  (self : TLDetector) (w1 w2 w3 w4 : Z) :
  py_eq (state self) (PyInt RED) = false ->
  let red := PyInt RED in
  let s1 := fst (debounce self w1 red) in
  let s2 := fst (debounce s1 w2 red) in
  let s3 := fst (debounce s2 w3 red) in
  let s4 := fst (debounce s3 w4 red) in
  snd (debounce s1 w2 red) = [Publish (last_wp self)] /\
  snd (debounce s2 w3 red) = [Publish (last_wp self)] /\
  last_state s3 = last_state self /\
  last_wp s3 = last_wp self /\
  snd (debounce s3 w4 red) = [Publish w4] /\
  last_state s4 = PyInt RED /\
  last_wp s4 = w4.
Proof.
  intros Hne red s1 s2 s3 s4.
  assert (H1 : s1 = bump (set_state (set_state_count self 0) red)).
  { unfold s1. rewrite debounce_change by exact Hne. reflexivity. }
  assert (H2 : debounce s1 w2 red = (bump s1, [Publish (last_wp self)])).
  { rewrite debounce_below; rewrite H1; simpl.
    - reflexivity.
    - apply py_eq_refl.
    - unfold STATE_COUNT_THRESHOLD. lia. }
  assert (H3 : debounce s2 w3 red = (bump s2, [Publish (last_wp self)])).
  { unfold s2. rewrite H2. simpl fst.
    rewrite debounce_below; rewrite H1; simpl.
    - reflexivity.
    - apply py_eq_refl.
    - unfold STATE_COUNT_THRESHOLD. lia. }
  assert (H4 : debounce s3 w4 red =
               (bump (set_last_wp (set_last_state s3 red) w4), [Publish w4])).
  { unfold s3. rewrite H3. simpl fst. unfold s2. rewrite H2. simpl fst.
    rewrite debounce_commit; rewrite H1; simpl.
    - unfold red. rewrite py_eq_refl. reflexivity.
    - apply py_eq_refl.
    - unfold STATE_COUNT_THRESHOLD. lia. }
  repeat split.
  - rewrite H2. reflexivity.
  - rewrite H3. reflexivity.
  - unfold s3. rewrite H3. unfold s2. rewrite H2. rewrite H1. reflexivity.
  - unfold s3. rewrite H3. unfold s2. rewrite H2. rewrite H1. reflexivity.
  - rewrite H4. reflexivity.
  - unfold s4. rewrite H4. reflexivity.
  - unfold s4. rewrite H4. reflexivity.
Qed.

(** ** What the callbacks leave alone *)

Lemma eta_light_fields (self : TLDetector) :
  set_prev_light_loc (set_last_light_state self (last_light_state self))
    (prev_light_loc self) = self.
Proof. destruct self. reflexivity. Qed.

(** [get_light_state] writes [last_light_state] and [prev_light_loc] only. *)
Lemma get_light_state_writes (self : TLDetector) (light : TrafficLightMsg) :
  exists lls plc,
    fst (fst (get_light_state self light)) =
      set_prev_light_loc (set_last_light_state self lls) plc.
Proof.
  unfold get_light_state.
  destruct (has_image self); simpl.
  - destruct (camera_image self) as [img|]; simpl.
    + destruct (match last_light_state self with
                | Some v => negb (py_eq v (PyInt (get_classification img)))
                | None => true
                end).
      * exists (Some (PyInt (get_classification img))), (prev_light_loc self).
        destruct self. reflexivity.
      * exists (last_light_state self), (prev_light_loc self).
        symmetry. apply eta_light_fields.
    + exists (last_light_state self), (prev_light_loc self).
      symmetry. apply eta_light_fields.
  - exists (last_light_state self), (Some tt). destruct self. reflexivity.
Qed.

(** [get_light_state] publishes nothing. *)
Lemma get_light_state_published (self : TLDetector) (light : TrafficLightMsg) :
  published (snd (fst (get_light_state self light))) = [].
Proof.
  unfold get_light_state.
  destruct (has_image self); simpl; [|reflexivity].
  destruct (camera_image self); reflexivity.
Qed.

(** With an image taken, [get_light_state] returns the classifier's label. *)
Lemma get_light_state_has_image
  (self : TLDetector) (light : TrafficLightMsg) (img : Image) :
  has_image self = true ->
  camera_image self = Some img ->
  snd (fst (get_light_state self light)) = [Classify img] /\
  snd (get_light_state self light) = inr (PyInt (get_classification img)) /\
  prev_light_loc (fst (fst (get_light_state self light))) = prev_light_loc self.
Proof.
  intros Hi Hc. unfold get_light_state. rewrite Hi, Hc. simpl.
  repeat split.
  destruct (match last_light_state self with
            | Some v => negb (py_eq v (PyInt (get_classification img)))
            | None => true
            end); reflexivity.
Qed.

(** [process_traffic_lights] writes the same two attributes only, and
    publishes nothing itself. *)
Lemma process_traffic_lights_writes (self : TLDetector) :
  (exists lls plc,
      fst (fst (process_traffic_lights self)) =
        set_prev_light_loc (set_last_light_state self lls) plc) /\
  published (snd (fst (process_traffic_lights self))) = [].
Proof.
  assert (Hself : exists lls plc,
             self = set_prev_light_loc (set_last_light_state self lls) plc).
  { exists (last_light_state self), (prev_light_loc self).
    symmetry. apply eta_light_fields. }
  unfold process_traffic_lights.
  destruct (pose self) as [p|]; [|split; [exact Hself | reflexivity]].
  destruct (waypoint_tree self) as [tree|]; [|split; [exact Hself | reflexivity]].
  destruct (waypoints self) as [lane|]; [|split; [exact Hself | reflexivity]].
  destruct (locate _ _ _ _ _ _) as [e|[[idx light]|]];
    try (split; [exact Hself | reflexivity]).
  pose proof (get_light_state_writes self light) as Hw.
  pose proof (get_light_state_published self light) as Hp.
  destruct (get_light_state self light) as [[s' tr] [e|v]]; simpl in *;
    split; assumption.
Qed.

(** ** The image callback, case by case *)

Lemma image_cb_not_built (self : TLDetector) (msg : Image) (t1 t2 : Q) :
  waypoint_tree self = None -> image_cb self msg t1 t2 = done self.
Proof. intros H. unfold image_cb. rewrite H. reflexivity. Qed.

Lemma image_cb_too_soon
  (self : TLDetector) (msg : Image) (t1 t2 : Q) :
  (float_sub t1 (last_img_processed self) < CAMERA_IMG_PROCESS_RATE)%Q ->
  image_cb self msg t1 t2 = done self.
Proof.
  intros H. unfold image_cb. apply Qlt_bool_true in H. rewrite H.
  destruct (waypoint_tree self); reflexivity.
Qed.

Lemma image_cb_taken_rounded
  (self : TLDetector) (msg : Image) (t1 t2 : Q) (tree : KDTree) :
  waypoint_tree self = Some tree ->
  (CAMERA_IMG_PROCESS_RATE <= float_sub t1 (last_img_processed self))%Q ->
  image_cb self msg t1 t2 =
    match process_traffic_lights (accept_frame self msg t2) with
    | (s, tr, inl e) => {| st := s; trace := tr; raised := Some e |}
    | (s, tr, inr (light_wp, new_state)) =>
        {| st := fst (debounce s light_wp new_state);
           trace := tr ++ snd (debounce s light_wp new_state);
           raised := None |}
    end.
Proof.
  intros Ht H. unfold image_cb. rewrite Ht.
  apply Qlt_bool_false in H. rewrite H.
  destruct (process_traffic_lights _) as [[s tr] [e|[w v]]]; [reflexivity|].
  destruct (debounce s w v). reflexivity.
Qed.

Lemma image_cb_taken
  (self : TLDetector) (msg : Image) (t1 t2 : Q) (tree : KDTree) :
  waypoint_tree self = Some tree ->
  (CAMERA_IMG_PROCESS_RATE <= t1 - last_img_processed self)%Q ->
  image_cb self msg t1 t2 =
    match process_traffic_lights (accept_frame self msg t2) with
    | (s, tr, inl e) => {| st := s; trace := tr; raised := Some e |}
    | (s, tr, inr (light_wp, new_state)) =>
        {| st := fst (debounce s light_wp new_state);
           trace := tr ++ snd (debounce s light_wp new_state);
           raised := None |}
    end.
Proof.
  intros Ht H. apply (image_cb_taken_rounded self msg t1 t2 tree Ht).
  apply float_sub_rate. exact H.
Qed.

(** The filter writes its own four attributes only. *)
Lemma debounce_writes (self : TLDetector) (w : Z) (v : pyval) :
  exists c x ls lw,
    fst (debounce self w v) =
      set_last_wp (set_last_state (set_state (set_state_count self c) x) ls) lw.
Proof.
  unfold debounce.
  destruct (negb (py_eq (state self) v)); simpl.
  - exists (0 + 1), v, (last_state self), (last_wp self).
    destruct self. reflexivity.
  - destruct (STATE_COUNT_THRESHOLD <=? state_count self); simpl.
    + exists (state_count self + 1), (state self), (state self),
        (if py_eq v (PyInt RED) then w else -1).
      destruct self. reflexivity.
    + exists (state_count self + 1), (state self), (last_state self), (last_wp self).
      destruct self. reflexivity.
Qed.

(** A taken frame leaves its three marks, whatever the pipeline does next. *)
Lemma image_cb_taken_marks_rounded
  (self : TLDetector) (msg : Image) (t1 t2 : Q) (tree : KDTree) :
  waypoint_tree self = Some tree ->
  (CAMERA_IMG_PROCESS_RATE <= float_sub t1 (last_img_processed self))%Q ->
  has_image (st (image_cb self msg t1 t2)) = true /\
  camera_image (st (image_cb self msg t1 t2)) = Some msg /\
  last_img_processed (st (image_cb self msg t1 t2)) = t2.
Proof.
  intros Ht H. rewrite (image_cb_taken_rounded _ _ _ _ _ Ht H).
  destruct (process_traffic_lights_writes (accept_frame self msg t2))
    as [(lls & plc & Hs) _].
  destruct (process_traffic_lights (accept_frame self msg t2))
    as [[s tr] [e|[w v]]]; simpl in Hs; subst s.
  - simpl. repeat split.
  - destruct (debounce_writes
                (set_prev_light_loc
                   (set_last_light_state (accept_frame self msg t2) lls) plc) w v)
      as (c & x & ls & lw & Hd).
    simpl st. rewrite Hd. simpl. repeat split.
Qed.

Lemma image_cb_taken_marks
  (self : TLDetector) (msg : Image) (t1 t2 : Q) (tree : KDTree) :
  waypoint_tree self = Some tree ->
  (CAMERA_IMG_PROCESS_RATE <= t1 - last_img_processed self)%Q ->
  has_image (st (image_cb self msg t1 t2)) = true /\
  camera_image (st (image_cb self msg t1 t2)) = Some msg /\
  last_img_processed (st (image_cb self msg t1 t2)) = t2.
Proof.
  intros Ht H. apply (image_cb_taken_marks_rounded self msg t1 t2 tree Ht).
  apply float_sub_rate. exact H.
Qed.

(** The image callback never touches what the other callbacks store. *)
Lemma image_cb_keeps_inputs (self : TLDetector) (msg : Image) (t1 t2 : Q) :
  let s' := st (image_cb self msg t1 t2) in
  pose s' = pose self /\ waypoints s' = waypoints self /\
  lights s' = lights self /\ waypoints_2d s' = waypoints_2d self /\
  waypoint_tree s' = waypoint_tree self /\ config s' = config self.
Proof.
  unfold image_cb.
  destruct (waypoint_tree self) as [tree|] eqn:Ht; [|simpl; repeat split; auto].
  destruct (Qlt_bool _ _); [simpl; repeat split; auto|].
  destruct (process_traffic_lights_writes (accept_frame self msg t2))
    as [(lls & plc & Hs) _].
  destruct (process_traffic_lights (accept_frame self msg t2))
    as [[s tr] [e|[w v]]]; simpl in Hs; subst s.
  - simpl. repeat split; auto.
  - destruct (debounce_writes
                (set_prev_light_loc
                   (set_last_light_state (accept_frame self msg t2) lls) plc) w v)
      as (c & x & ls & lw & Hd).
    destruct (debounce _ w v) as [s'' tr'']. simpl in Hd. subst s''.
    simpl. repeat split; auto.
Qed.

(** ** C3: the frame gate *)

(** C3 (as the code has it).  With the index built, [image_cb] takes the
    frame - sets [has_image], stores the image and sets
    [last_img_processed] to the clock reading of line 94 - exactly when the
    elapsed time of line 86, the double-precision difference
    [t1 - last_img_processed], is at least [CAMERA_IMG_PROCESS_RATE]; when
    it is smaller the callback returns without any effect.  An exact
    difference of at least the rate is always enough.  [last_img_processed]
    starts at zero, so the first gated frame, whose reading [t1] is a
    double, is taken when [t1] is at least the rate and dropped when it is
    below. *)
Theorem frame_gate_decides
  (self : TLDetector) (msg : Image) (t1 t2 : Q) (tree : KDTree) :
  waypoint_tree self = Some tree ->
  let r := image_cb self msg t1 t2 in
  let elapsed := float_sub t1 (last_img_processed self) in
  let taken :=
    has_image (st r) = true /\ camera_image (st r) = Some msg /\
    last_img_processed (st r) = t2 in
  ((CAMERA_IMG_PROCESS_RATE <= elapsed)%Q -> taken) /\
  ((elapsed < CAMERA_IMG_PROCESS_RATE)%Q -> r = done self) /\
  ((CAMERA_IMG_PROCESS_RATE <= t1 - last_img_processed self)%Q -> taken) /\
  (last_img_processed self = 0%Q -> (round_double t1 == t1)%Q ->
     ((CAMERA_IMG_PROCESS_RATE <= t1)%Q -> taken) /\
     ((t1 < CAMERA_IMG_PROCESS_RATE)%Q -> r = done self)).
Proof.
  intros Ht r elapsed taken. split; [|split; [|split]].
  - intros H. exact (image_cb_taken_marks_rounded self msg t1 t2 tree Ht H).
  - intros H. exact (image_cb_too_soon self msg t1 t2 H).
  - intros H. exact (image_cb_taken_marks self msg t1 t2 tree Ht H).
  - intros H0 Hd.
    assert (Heq : (elapsed == t1)%Q).
    { unfold elapsed. rewrite H0. apply float_sub_zero. exact Hd. }
    split; intros H.
    + apply (image_cb_taken_marks_rounded self msg t1 t2 tree Ht).
      fold elapsed. rewrite Heq. exact H.
    + apply image_cb_too_soon. fold elapsed. rewrite Heq. exact H.
Qed.

Lemma init_last_img_processed (cfg : Config) :
  last_img_processed (init_state cfg) = 0%Q.
Proof. reflexivity. Qed.

(** ** C10: the [False] branch of [get_light_state] *)

(** Once a frame has been taken, [process_traffic_lights] yields either
    "no light" or the classifier's label, and leaves [prev_light_loc]
    alone. *)
Lemma process_traffic_lights_has_image (self : TLDetector) (img : Image) :
  has_image self = true ->
  camera_image self = Some img ->
  prev_light_loc (fst (fst (process_traffic_lights self))) = prev_light_loc self /\
  forall w v, snd (process_traffic_lights self) = inr (w, v) ->
              v = PyInt UNKNOWN \/ v = PyInt (get_classification img).
Proof.
  intros Hi Hc. unfold process_traffic_lights.
  assert (Hn : forall w v,
             @inr exn (Z * pyval) (-1, PyInt UNKNOWN) = inr (w, v) ->
             v = PyInt UNKNOWN \/ v = PyInt (get_classification img)).
  { intros w v H. injection H as _ H. left. symmetry. exact H. }
  destruct (pose self) as [p|]; [|split; [reflexivity | exact Hn]].
  destruct (waypoint_tree self) as [tree|]; [|split; [reflexivity | exact Hn]].
  destruct (waypoints self) as [lane|];
    [|split; [reflexivity | intros w v H; discriminate H]].
  destruct (locate _ _ _ _ _ _) as [e|[[idx light]|]].
  - split; [reflexivity | intros w v H; discriminate H].
  - destruct (get_light_state_has_image self light img Hi Hc) as (_ & Hr & Hp).
    destruct (get_light_state self light) as [[s' tr] [e|v']]; simpl in *.
    + discriminate Hr.
    + split; [exact Hp|]. intros w v H. injection H as _ H. subst v.
      injection Hr as Hr. right. exact Hr.
  - split; [reflexivity | exact Hn].
Qed.

Lemma image_cb_prev_light_loc (self : TLDetector) (msg : Image) (t1 t2 : Q) :
  prev_light_loc (st (image_cb self msg t1 t2)) = prev_light_loc self.
Proof.
  unfold image_cb.
  destruct (waypoint_tree self) as [tree|]; [|reflexivity].
  destruct (Qlt_bool _ _); [reflexivity|].
  destruct (process_traffic_lights_has_image (accept_frame self msg t2) msg
              eq_refl eq_refl) as [Hp _].
  destruct (process_traffic_lights (accept_frame self msg t2))
    as [[s tr] [e|[w v]]]; simpl in Hp.
  - exact Hp.
  - destruct (debounce_writes s w v) as (c & x & ls & lw & Hd).
    destruct (debounce s w v) as [s'' tr'']. simpl in Hd. subst s''.
    simpl. exact Hp.
Qed.

Lemma dispatch_prev_light_loc (self : TLDetector) (e : event) :
  prev_light_loc (st (dispatch self e)) = prev_light_loc self.
Proof.
  destruct e as [msg|msg|msg|msg t1 t2]; simpl.
  - reflexivity.
  - unfold waypoints_cb.
    destruct (negb _); [|reflexivity].
    destruct (KDTree_new _); reflexivity.
  - reflexivity.
  - apply image_cb_prev_light_loc.
Qed.

Lemma run_prev_light_loc (es : list event) (self : TLDetector) :
  prev_light_loc (run self es) = prev_light_loc self.
Proof.
  revert self. induction es as [|e es IH]; intros self; simpl.
  - reflexivity.
  - rewrite IH. apply dispatch_prev_light_loc.
Qed.

(** C10.  The state [image_cb] hands to [process_traffic_lights] has
    [has_image] set.  On it, [get_light_state] calls the classifier on the
    frame just stored and returns its label, never [False]; so the label
    [process_traffic_lights] hands to the filter is [UNKNOWN] or the
    classifier's.  Over a whole run the [False] branch is never entered:
    the attribute it creates, [prev_light_loc], never comes to exist. *)
Theorem get_light_state_returns_classification
  (self : TLDetector) (msg : Image) (t2 : Q) (light : TrafficLightMsg) :
  let s := accept_frame self msg t2 in
  has_image s = true /\
  snd (get_light_state s light) = inr (PyInt (get_classification msg)) /\
  snd (fst (get_light_state s light)) = [Classify msg] /\
  (forall w v, snd (process_traffic_lights s) = inr (w, v) ->
               v = PyInt UNKNOWN \/ v = PyInt (get_classification msg)) /\
  (forall cfg es, prev_light_loc (run (init_state cfg) es) = None).
Proof.
  intros s.
  destruct (get_light_state_has_image s light msg eq_refl eq_refl)
    as (Ht & Hr & _).
  split; [reflexivity|]. split; [exact Hr|]. split; [exact Ht|]. split.
  - exact (proj2 (process_traffic_lights_has_image s msg eq_refl eq_refl)).
  - intros cfg es. rewrite run_prev_light_loc. reflexivity.
Qed.

(** ** C4: an image while the pose is unknown *)

Lemma process_traffic_lights_no_pose (self : TLDetector) :
  pose self = None ->
  process_traffic_lights self = (self, [], inr (-1, PyInt UNKNOWN)).
Proof. intros H. unfold process_traffic_lights. rewrite H. reflexivity. Qed.

(** C4 (as the code has it).  With the index built and the frame gate
    open, an image that arrives while the pose is unknown is not dropped:
    the frame is taken, no classification is run, and "no light"
    ([-1], [UNKNOWN]) goes through the state-count filter.  When the
    pending state is already [UNKNOWN] the tick publishes one value, [-1]
    or the waypoint published before. *)
Theorem unknown_pose_feeds_unknown
  (self : TLDetector) (msg : Image) (t1 t2 : Q) (tree : KDTree) :
  waypoint_tree self = Some tree ->
  pose self = None ->
  (CAMERA_IMG_PROCESS_RATE <= t1 - last_img_processed self)%Q ->
  let r := image_cb self msg t1 t2 in
  let s := accept_frame self msg t2 in
  raised r = None /\
  classified (trace r) = [] /\
  st r = fst (debounce s (-1) (PyInt UNKNOWN)) /\
  trace r = snd (debounce s (-1) (PyInt UNKNOWN)) /\
  (py_eq (state self) (PyInt UNKNOWN) = true ->
     trace r = [Publish (-1)] \/ trace r = [Publish (last_wp self)]).
Proof.
  intros Ht Hp Hg r s. unfold r.
  rewrite (image_cb_taken self msg t1 t2 tree Ht Hg).
  rewrite process_traffic_lights_no_pose by exact Hp. fold s. simpl.
  split; [reflexivity|]. split; [|split; [reflexivity|split; [reflexivity|]]].
  - destruct (debounce_trace s (-1) (PyInt UNKNOWN)) as [H|[x H]];
      rewrite H; reflexivity.
  - intros Hu. unfold debounce. replace (state s) with (state self) by reflexivity.
    rewrite Hu. simpl.
    destruct (STATE_COUNT_THRESHOLD <=? state_count self); simpl.
    + left. destruct (py_eq (PyInt UNKNOWN) (PyInt RED)); reflexivity.
    + right. reflexivity.
Qed.

(** ** C5: the stop-line scan *)

(** The loop either fails on an index operation or is a left fold of
    [scan_step] over the pairs it goes through. *)
Lemma scan_lights_visited (tree : KDTree) (stops : list (list Q)) (V : Z) :
  forall (ls : list TrafficLightMsg) (i : nat) (acc : Scan),
    scan_lights tree stops V i ls acc =
      match visited_pairs tree stops i ls with
      | None => inl IndexError
      | Some pairs =>
          inr (fold_left (fun a p => scan_step V a (fst p) (snd p)) pairs acc)
      end.
Proof.
  induction ls as [|light ls IH]; intros i acc; simpl; [reflexivity|].
  destruct (nth_error stops i) as [line|]; [|reflexivity].
  destruct (stop_ordinal tree line) as [W|]; [|reflexivity].
  rewrite IH. destruct (visited_pairs tree stops (S i) ls); reflexivity.
Qed.

(** The pairs are the lights, in order, each with the projection of the
    stop line at the same position. *)
Lemma visited_pairs_spec (tree : KDTree) (stops : list (list Q)) :
  forall (ls : list TrafficLightMsg) (i : nat) (pairs : list (TrafficLightMsg * Z)),
    visited_pairs tree stops i ls = Some pairs ->
    map fst pairs = ls /\
    forall j light W,
      nth_error pairs j = Some (light, W) ->
      exists line,
        nth_error stops (i + j) = Some line /\ stop_ordinal tree line = Some W.
Proof.
  induction ls as [|light ls IH]; intros i pairs Hv; simpl in Hv.
  - injection Hv as <-. split; [reflexivity|].
    intros [|j] l W H; discriminate H.
  - destruct (nth_error stops i) as [line|] eqn:Hl; [|discriminate Hv].
    destruct (stop_ordinal tree line) as [W0|] eqn:Ho; [|discriminate Hv].
    destruct (visited_pairs tree stops (S i) ls) as [ps|] eqn:Hps;
      [|discriminate Hv].
    injection Hv as <-. destruct (IH (S i) ps Hps) as [Hm Hn].
    split; [simpl; rewrite Hm; reflexivity|].
    intros [|j] l W H; simpl in H.
    + injection H as <- <-. exists line. rewrite Nat.add_0_r.
      split; assumption.
    + destruct (Hn j l W H) as (line' & H1 & H2). exists line'.
      replace (i + S j)%nat with (S i + j)%nat by lia. split; assumption.
Qed.

Lemma scan_step_inv (n V : Z) (seen : list (TrafficLightMsg * Z)) (acc : Scan)
  (light : TrafficLightMsg) (W : Z) :
  scan_inv n V seen acc ->
  scan_inv n V (seen ++ [(light, W)]) (scan_step V acc light W).
Proof.
  intros Hinv. unfold scan_step.
  destruct ((0 <=? W - V) && (W - V <? diff acc)) eqn:Hc.
  - apply andb_true_iff in Hc. destruct Hc as [H0 H1].
    apply Z.leb_le in H0. apply Z.ltb_lt in H1.
    unfold scan_inv in *. simpl.
    split; [apply in_or_app; right; left; reflexivity|].
    split; [reflexivity|]. split; [exact H0|].
    destruct (closest_light acc), (line_wp_idx acc); try contradiction.
    + destruct Hinv as (_ & Hd & _ & Hn & Hmin). split; [lia|].
      intros p Hp Hp0. apply in_app_or in Hp. destruct Hp as [Hp|[Hp|[]]].
      * specialize (Hmin p Hp Hp0). lia.
      * subst p. simpl. lia.
    + destruct Hinv as (Hd & Hout). split; [lia|].
      intros p Hp Hp0. apply in_app_or in Hp. destruct Hp as [Hp|[Hp|[]]].
      * destruct (Hout p Hp); lia.
      * subst p. simpl. lia.
  - apply andb_false_iff in Hc.
    assert (Hcase : W - V < 0 \/ diff acc <= W - V).
    { destruct Hc as [Hc|Hc].
      - apply Z.leb_gt in Hc. left. exact Hc.
      - apply Z.ltb_ge in Hc. right. exact Hc. }
    unfold scan_inv in *.
    destruct (closest_light acc), (line_wp_idx acc); try contradiction.
    + destruct Hinv as (Hin & Hd & H0 & Hn & Hmin).
      split; [apply in_or_app; left; exact Hin|].
      split; [exact Hd|]. split; [exact H0|]. split; [exact Hn|].
      intros p Hp Hp0. apply in_app_or in Hp. destruct Hp as [Hp|[Hp|[]]].
      * exact (Hmin p Hp Hp0).
      * subst p. simpl in *. lia.
    + destruct Hinv as (Hd & Hout). split; [exact Hd|].
      intros p Hp. apply in_app_or in Hp. destruct Hp as [Hp|[Hp|[]]].
      * exact (Hout p Hp).
      * subst p. simpl. lia.
Qed.

Lemma scan_fold_inv (n V : Z) :
  forall (pairs seen : list (TrafficLightMsg * Z)) (acc : Scan),
    scan_inv n V seen acc ->
    scan_inv n V (seen ++ pairs)
      (fold_left (fun a p => scan_step V a (fst p) (snd p)) pairs acc).
Proof.
  induction pairs as [|[light W] pairs IH]; intros seen acc Hinv.
  - rewrite app_nil_r. exact Hinv.
  - simpl fold_left.
    replace (seen ++ (light, W) :: pairs) with ((seen ++ [(light, W)]) ++ pairs)
      by (rewrite <- app_assoc; reflexivity).
    apply IH. apply scan_step_inv. exact Hinv.
Qed.

(** C5 (as the code has it).  For every horizon [H], vehicle ordinal [V],
    initial bound [n] (the length of the stored route), stop-line list and
    light list: the scan goes through the pairs (light [i], ordinal of stop
    line [i]), one per light.  If an index operation fails on the way it
    raises [IndexError].  Otherwise, when it returns a stop line, that one
    is among the pairs, is not behind the vehicle, is less than [n] and at
    most [H] ahead, and no paired stop line ahead is nearer; when it returns
    none, either no paired stop line is ahead by less than [n], or the
    nearest one ahead is more than [H] away.  So [W - V = H] is accepted,
    [W - V = H + 1] is rejected, and a stop line behind is never returned. *)
Theorem locate_nearest_visited
  (H : Z) (tree : KDTree) (stops : list (list Q)) (ls : list TrafficLightMsg)
  (n V : Z) :
  match visited_pairs tree stops 0 ls with
  | None => locate H tree stops ls n V = inl IndexError
  | Some pairs =>
      exists r,
        locate H tree stops ls n V = inr r /\
        match r with
        | Some (W, light) =>
            In (light, W) pairs /\
            0 <= W - V <= H /\ W - V < n /\
            forall p, In p pairs -> 0 <= snd p - V -> W - V <= snd p - V
        | None =>
            (forall p, In p pairs -> snd p - V < 0 \/ n <= snd p - V) \/
            (exists p, In p pairs /\ 0 <= snd p - V < n /\ H < snd p - V /\
                       forall p', In p' pairs -> 0 <= snd p' - V ->
                                  snd p - V <= snd p' - V)
        end
  end.
Proof.
  unfold locate. rewrite scan_lights_visited.
  destruct (visited_pairs tree stops 0 ls) as [pairs|]; [|reflexivity].
  set (init := {| diff := n; closest_light := None; line_wp_idx := None |}).
  assert (Hinv : scan_inv n V ([] ++ pairs)
                   (fold_left (fun a p => scan_step V a (fst p) (snd p))
                      pairs init)).
  { apply scan_fold_inv. unfold scan_inv. simpl.
    split; [reflexivity|]. intros p []. }
  simpl app in Hinv. unfold scan_inv in Hinv.
  destruct (closest_light _) as [light|], (line_wp_idx _) as [idx|];
    try contradiction.
  - destruct Hinv as (Hin & _ & H0 & Hn & Hmin).
    destruct (idx - V <=? H) eqn:Hh.
    + apply Z.leb_le in Hh. exists (Some (idx, light)).
      split; [reflexivity|]. split; [exact Hin|].
      split; [lia|]. split; [exact Hn | exact Hmin].
    + apply Z.leb_gt in Hh. exists None. split; [reflexivity|]. right.
      exists (light, idx). simpl. split; [exact Hin|].
      split; [lia|]. split; [exact Hh | exact Hmin].
  - destruct Hinv as (_ & Hout). exists None. split; [reflexivity|]. left.
    exact Hout.
Qed.

(** ** C6: a waypoint is published only under a committed red *)

Lemma published_app (a b : list effect) :
  published (a ++ b) = published a ++ published b.
Proof.
  induction a as [|[v|img] a IH]; simpl; [reflexivity| |exact IH].
  rewrite IH. reflexivity.
Qed.

(** The filter keeps "[last_wp] is [-1] or the committed state is red",
    and what it publishes obeys the same rule. *)
Lemma debounce_red_only (self : TLDetector) (w : Z) (v : pyval) :
  last_wp self = -1 \/ py_eq (last_state self) (PyInt RED) = true ->
  let s' := fst (debounce self w v) in
  (last_wp s' = -1 \/ py_eq (last_state s') (PyInt RED) = true) /\
  forall x, In x (published (snd (debounce self w v))) ->
            x = -1 \/ py_eq (last_state s') (PyInt RED) = true.
Proof.
  intros Hinv. unfold debounce.
  destruct (py_eq (state self) v) eqn:Hs; simpl negb; cbv iota.
  - destruct (STATE_COUNT_THRESHOLD <=? state_count self); simpl.
    + destruct (py_eq v (PyInt RED)) eqn:Hr.
      * assert (Hred : py_eq (state self) (PyInt RED) = true)
          by exact (py_eq_trans _ _ _ Hs Hr).
        split; [right; exact Hred|]. intros x _. right. exact Hred.
      * split; [left; reflexivity|]. intros x [Hx|[]]. left. symmetry. exact Hx.
    + split; [exact Hinv|]. intros x [Hx|[]]. subst x. exact Hinv.
  - simpl. split; [exact Hinv|]. intros x [].
Qed.

Lemma image_cb_red_only (self : TLDetector) (msg : Image) (t1 t2 : Q) :
  last_wp self = -1 \/ py_eq (last_state self) (PyInt RED) = true ->
  let r := image_cb self msg t1 t2 in
  (last_wp (st r) = -1 \/ py_eq (last_state (st r)) (PyInt RED) = true) /\
  forall x, In x (published (trace r)) ->
            x = -1 \/ py_eq (last_state (st r)) (PyInt RED) = true.
Proof.
  intros Hinv. unfold image_cb.
  destruct (waypoint_tree self) as [tree|];
    [|simpl; split; [exact Hinv | intros x []]].
  destruct (Qlt_bool _ _); [simpl; split; [exact Hinv | intros x []]|].
  destruct (process_traffic_lights_writes (accept_frame self msg t2))
    as [(lls & plc & Hs) Hp].
  destruct (process_traffic_lights (accept_frame self msg t2))
    as [[s tr] [e|[w v]]]; simpl in Hs, Hp.
  - simpl. rewrite Hp. subst s. simpl. split; [exact Hinv | intros x []].
  - assert (Hinv' : last_wp s = -1 \/ py_eq (last_state s) (PyInt RED) = true).
    { subst s. simpl. exact Hinv. }
    pose proof (debounce_red_only s w v Hinv') as Hd.
    destruct (debounce s w v) as [s'' tr'']. simpl in Hd. simpl.
    rewrite published_app, Hp. simpl. exact Hd.
Qed.

Lemma dispatch_red_only (self : TLDetector) (e : event) :
  last_wp self = -1 \/ py_eq (last_state self) (PyInt RED) = true ->
  let r := dispatch self e in
  (last_wp (st r) = -1 \/ py_eq (last_state (st r)) (PyInt RED) = true) /\
  forall x, In x (published (trace r)) ->
            x = -1 \/ py_eq (last_state (st r)) (PyInt RED) = true.
Proof.
  intros Hinv. destruct e as [msg|msg|msg|msg t1 t2]; simpl.
  - split; [exact Hinv | intros x []].
  - unfold waypoints_cb. destruct (negb _).
    + destruct (KDTree_new _); simpl; (split; [exact Hinv | intros x []]).
    + simpl. split; [exact Hinv | intros x []].
  - split; [exact Hinv | intros x []].
  - apply image_cb_red_only. exact Hinv.
Qed.

Lemma run_red_only (es : list event) (self : TLDetector) :
  last_wp self = -1 \/ py_eq (last_state self) (PyInt RED) = true ->
  last_wp (run self es) = -1 \/
  py_eq (last_state (run self es)) (PyInt RED) = true.
Proof.
  revert self. induction es as [|e es IH]; intros self Hinv; simpl.
  - exact Hinv.
  - apply IH. exact (proj1 (dispatch_red_only self e Hinv)).
Qed.

(** C6.  In every state the node can reach from start-up, and for every
    delivery made in that state: each value published is [-1], or else the
    committed state at that moment ([last_state]) is red.  So a waypoint
    ordinal goes out only under a committed red, and [-1] in all other
    cases. *)
Theorem waypoint_published_only_under_red
  (cfg : Config) (es : list event) (e : event) (v : Z) :
  let r := dispatch (run (init_state cfg) es) e in
  In v (published (trace r)) ->
  v = -1 \/ py_eq (last_state (st r)) (PyInt RED) = true.
Proof.
  intros r Hin.
  assert (Hinv : last_wp (run (init_state cfg) es) = -1 \/
                 py_eq (last_state (run (init_state cfg) es)) (PyInt RED) = true).
  { apply run_red_only. left. reflexivity. }
  exact (proj2 (dispatch_red_only _ e Hinv) v Hin).
Qed.

(** ** C7: indexing the stop-line list *)

(** [line[0]] and [line[1]] fail exactly on a stop line with fewer than
    two coordinates. *)
Lemma stop_ordinal_none (tree : KDTree) (line : list Q) :
  stop_ordinal tree line = None <-> (length line < 2)%nat.
Proof.
  unfold stop_ordinal. destruct line as [|x [|y rest]]; simpl.
  - split; [intros _; lia | reflexivity].
  - split; [intros _; lia | reflexivity].
  - split; [intros H; discriminate H | intros H; lia].
Qed.

(** The loop fails exactly when some light has no stop line at its
    position, or one with fewer than two coordinates. *)
Lemma visited_pairs_none (tree : KDTree) (stops : list (list Q)) :
  forall (ls : list TrafficLightMsg) (i : nat),
    visited_pairs tree stops i ls = None <->
    exists j, (j < length ls)%nat /\
              match nth_error stops (i + j) with
              | None => True
              | Some line => (length line < 2)%nat
              end.
Proof.
  induction ls as [|light ls IH]; intros i; simpl.
  - split; [intros H; discriminate H | intros (j & Hj & _); lia].
  - destruct (nth_error stops i) as [line|] eqn:Hl.
    + destruct (stop_ordinal tree line) as [W|] eqn:Ho.
      * assert (Hlen : (2 <= length line)%nat).
        { destruct (Nat.lt_ge_cases (length line) 2) as [Hlt|Hge];
            [|exact Hge].
          apply (stop_ordinal_none tree) in Hlt. congruence. }
        destruct (visited_pairs tree stops (S i) ls) as [ps|] eqn:Hps.
        -- split; [intros H; discriminate H|].
           intros (j & Hj & Hbad). destruct j as [|j].
           ++ rewrite Nat.add_0_r, Hl in Hbad. lia.
           ++ assert (Hex : exists j', (j' < length ls)%nat /\
                              match nth_error stops (S i + j') with
                              | None => True
                              | Some line => (length line < 2)%nat
                              end).
              { exists j. split; [lia|].
                replace (S i + j)%nat with (i + S j)%nat by lia. exact Hbad. }
              apply (IH (S i)) in Hex. congruence.
        -- split; [|reflexivity]. intros _.
           destruct (proj1 (IH (S i)) Hps) as (j & Hj & Hbad).
           exists (S j). split; [lia|].
           replace (i + S j)%nat with (S i + j)%nat by lia. exact Hbad.
      * split; [|reflexivity]. intros _. exists 0%nat. split; [lia|].
        rewrite Nat.add_0_r, Hl. apply (stop_ordinal_none tree). exact Ho.
    + split; [|reflexivity]. intros _. exists 0%nat. split; [lia|].
      rewrite Nat.add_0_r, Hl. exact I.
Qed.

(** The scan raises nothing but [IndexError], and that exactly when the
    loop's index operations fail. *)
Lemma locate_outcome (H : Z) (tree : KDTree) (stops : list (list Q))
  (ls : list TrafficLightMsg) (n V : Z) :
  match visited_pairs tree stops 0 ls with
  | None => locate H tree stops ls n V = inl IndexError
  | Some _ => exists r, locate H tree stops ls n V = inr r
  end.
Proof.
  unfold locate. rewrite scan_lights_visited.
  destruct (visited_pairs tree stops 0 ls) as [pairs|]; [|reflexivity].
  set (sc := fold_left _ pairs _).
  destruct (closest_light sc), (line_wp_idx sc); try (eexists; reflexivity).
  destruct (_ <=? _); eexists; reflexivity.
Qed.

(** C7 (as the code has it).  Start-up accepts every configuration; the
    stop-line list is not compared with anything there.  At run time, for
    a frame that is taken while pose and route are known: when the light
    list is longer than the stop-line list, or when the stop line at the
    position of some light has fewer than two coordinates, the tick raises
    [IndexError] and publishes nothing; when every light has a stop line
    with at least two coordinates at its position, the tick raises
    nothing. *)
Theorem stop_line_indexing
  (self : TLDetector) (msg : Image) (t1 t2 : Q)
  (tree : KDTree) (p : PoseStamped) (lane : Lane) :
  waypoint_tree self = Some tree ->
  pose self = Some p ->
  waypoints self = Some lane ->
  (CAMERA_IMG_PROCESS_RATE <= t1 - last_img_processed self)%Q ->
  let r := image_cb self msg t1 t2 in
  let stops := stop_line_positions (config self) in
  let n_lights := length (lights self) in
  (forall cfg, TLDetector_init cfg = inr (init_state cfg)) /\
  ((length stops < n_lights)%nat ->
     raised r = Some IndexError /\ trace r = []) /\
  (forall j line,
     (j < n_lights)%nat -> nth_error stops j = Some line ->
     (length line < 2)%nat ->
     raised r = Some IndexError /\ trace r = []) /\
  ((n_lights <= length stops)%nat ->
   (forall j line,
      (j < n_lights)%nat -> nth_error stops j = Some line ->
      (2 <= length line)%nat) ->
   raised r = None).
Proof.
  intros Ht Hp Hw Hg r stops n_lights. split; [reflexivity|].
  assert (Hcases :
            match visited_pairs tree stops 0 (lights self) with
            | None => raised r = Some IndexError /\ trace r = []
            | Some _ => raised r = None
            end).
  { unfold r. rewrite (image_cb_taken self msg t1 t2 tree Ht Hg).
    unfold process_traffic_lights.
    replace (pose (accept_frame self msg t2)) with (pose self) by reflexivity.
    replace (waypoint_tree (accept_frame self msg t2)) with (waypoint_tree self)
      by reflexivity.
    replace (waypoints (accept_frame self msg t2)) with (waypoints self)
      by reflexivity.
    replace (config (accept_frame self msg t2)) with (config self)
      by reflexivity.
    replace (lights (accept_frame self msg t2)) with (lights self)
      by reflexivity.
    rewrite Hp, Ht, Hw. fold stops.
    pose proof (locate_outcome WAYPOINT_DIFFERENCE tree stops (lights self)
                  (Z.of_nat (length (lane_waypoints lane)))
                  (get_closest_waypoint tree (position_x p) (position_y p)))
      as Hloc.
    destruct (visited_pairs tree stops 0 (lights self)) as [pairs|].
    - destruct Hloc as [[[idx light]|] Hr]; rewrite Hr; [|reflexivity].
      destruct (get_light_state_has_image (accept_frame self msg t2) light msg
                  eq_refl eq_refl) as (_ & Hv & _).
      destruct (get_light_state (accept_frame self msg t2) light)
        as [[s' tr] [e|v]]; simpl in Hv; [discriminate Hv | reflexivity].
    - rewrite Hloc. simpl. split; reflexivity. }
  pose proof (visited_pairs_none tree stops (lights self) 0) as Hnone.
  simpl in Hnone.
  destruct (visited_pairs tree stops 0 (lights self)) as [pairs|].
  - assert (Hno : ~ exists j, (j < length (lights self))%nat /\
                    match nth_error stops j with
                    | None => True
                    | Some line => (length line < 2)%nat
                    end).
    { intros Hex. apply Hnone in Hex. discriminate Hex. }
    split; [|split].
    + intros Hl. exfalso. apply Hno. exists (length stops).
      split; [exact Hl|].
      rewrite (proj2 (nth_error_None stops (length stops)) (Nat.le_refl _)).
      exact I.
    + intros j line Hj Hn Hshort. exfalso. apply Hno. exists j.
      split; [exact Hj|]. rewrite Hn. exact Hshort.
    + intros _ _. exact Hcases.
  - split; [intros _; exact Hcases|]. split; [intros j line _ _ _; exact Hcases|].
    intros Hle Hwf. exfalso.
    destruct (proj1 Hnone eq_refl) as (j & Hj & Hbad).
    destruct (nth_error stops j) as [line|] eqn:Hn.
    + specialize (Hwf j line Hj Hn). lia.
    + apply nth_error_None in Hn. unfold n_lights in Hle. lia.
Qed.

(** ** C9: route updates after the index is built *)

(** Whenever the tree exists, [waypoints_2d] is a non-empty list. *)
Lemma dispatch_tree_has_points (self : TLDetector) (e : event) :
  (waypoint_tree self = None \/ truthy_list (waypoints_2d self) = true) ->
  waypoint_tree (st (dispatch self e)) = None \/
  truthy_list (waypoints_2d (st (dispatch self e))) = true.
Proof.
  intros Hinv. destruct e as [msg|msg|msg|msg t1 t2]; simpl.
  - exact Hinv.
  - unfold waypoints_cb. simpl.
    destruct (truthy_list (waypoints_2d self)) eqn:Htr; simpl.
    + right. exact Htr.
    + destruct Hinv as [Hn|Hn]; [|discriminate Hn].
      destruct (lane_waypoints msg) as [|w ws]; simpl.
      * left. exact Hn.
      * right. reflexivity.
  - exact Hinv.
  - destruct (image_cb_keeps_inputs self msg t1 t2) as (_ & _ & _ & H2 & Ht & _).
    rewrite H2, Ht. exact Hinv.
Qed.

Lemma run_tree_has_points (es : list event) (self : TLDetector) :
  (waypoint_tree self = None \/ truthy_list (waypoints_2d self) = true) ->
  waypoint_tree (run self es) = None \/
  truthy_list (waypoints_2d (run self es)) = true.
Proof.
  revert self. induction es as [|e es IH]; intros self Hinv; simpl.
  - exact Hinv.
  - apply IH. apply dispatch_tree_has_points. exact Hinv.
Qed.

Lemma eta_waypoints (self : TLDetector) :
  set_waypoints self (waypoints self) = self.
Proof. destruct self. reflexivity. Qed.

(** C9 (as the code has it).  In every state the node can reach in which
    the tree is built, a route update raises nothing, has no outside
    effect, and writes exactly one attribute: [waypoints] becomes the new
    route.  The tree and [waypoints_2d] are as before.  Delivering the
    route that is already stored changes nothing at all. *)
Theorem route_update_after_build
  (cfg : Config) (es : list event) (wps : Lane) (tree : KDTree) :
  let s := run (init_state cfg) es in
  waypoint_tree s = Some tree ->
  let r := waypoints_cb s wps in
  raised r = None /\ trace r = [] /\
  st r = set_waypoints s (Some wps) /\
  waypoint_tree (st r) = Some tree /\
  waypoints_2d (st r) = waypoints_2d s /\
  (waypoints s = Some wps -> st r = s).
Proof.
  intros s Ht r.
  assert (Htr : truthy_list (waypoints_2d s) = true).
  { destruct (run_tree_has_points es (init_state cfg)) as [Hn|Hy].
    - left. reflexivity.
    - fold s in Hn. rewrite Ht in Hn. discriminate Hn.
    - exact Hy. }
  assert (Hr : r = done (set_waypoints s (Some wps))).
  { unfold r, waypoints_cb. simpl. rewrite Htr. reflexivity. }
  rewrite Hr. simpl.
  split; [reflexivity|]. split; [reflexivity|]. split; [reflexivity|].
  split; [exact Ht|]. split; [reflexivity|].
  intros Hw. rewrite <- Hw. apply eta_waypoints.
Qed.

End Properties.

(** * Further properties of the callbacks *)

Section Further.
Context {E : External}.

(** ** The filter over a run of equal labels *)

Lemma feed_cons (self : TLDetector) (w : Z) (v : pyval) (obs : list (Z * pyval)) :
  feed self ((w, v) :: obs) =
    (fst (feed (fst (debounce self w v)) obs),
     snd (debounce self w v) ++ snd (feed (fst (debounce self w v)) obs)).
Proof.
  simpl. destruct (debounce self w v) as [s tr]. simpl.
  destruct (feed s obs) as [s' tr']. reflexivity.
Qed.

Lemma last_nonempty_default {A : Type} :
  forall (l : list A) (x d d' : A), last (x :: l) d = last (x :: l) d'.
Proof.
  induction l as [|y l IH]; intros x d d'; [reflexivity|].
  change (last (y :: l) d = last (y :: l) d'). apply IH.
Qed.

(** Once the counter has reached the threshold, every further equal label
    commits. *)
Lemma feed_committed (v : pyval) :
  forall (ws : list Z) (self : TLDetector),
    py_eq (state self) v = true ->
    STATE_COUNT_THRESHOLD <= state_count self ->
    let cv := fun w => if py_eq v (PyInt RED) then w else -1 in
    let r := feed self (map (fun w => (w, v)) ws) in
    published (snd r) = map cv ws /\
    state (fst r) = state self /\
    state_count (fst r) = state_count self + Z.of_nat (length ws) /\
    last_wp (fst r) = last (map cv ws) (last_wp self) /\
    (ws <> [] -> last_state (fst r) = state self).
Proof.
  induction ws as [|w ws IH]; intros self Hs Hc cv r.
  - unfold r. simpl. repeat split; try lia. intros H. contradiction.
  - unfold r. simpl map. rewrite feed_cons.
    rewrite (debounce_commit self w v Hs Hc). cbv zeta. cbn [fst snd].
    set (s1 := bump (set_last_wp (set_last_state self (state self))
                       (if py_eq v (PyInt RED) then w else -1))).
    assert (Hs1 : py_eq (state s1) v = true) by exact Hs.
    assert (Hc1 : STATE_COUNT_THRESHOLD <= state_count s1).
    { unfold s1. simpl. lia. }
    destruct (IH s1 Hs1 Hc1) as (Hp & Hst & Hcnt & Hlw & Hls).
    split; [|split; [|split; [|split]]].
    + simpl. rewrite Hp. reflexivity.
    + rewrite Hst. reflexivity.
    + rewrite Hcnt. unfold s1. simpl state_count.
      change (length (w :: ws)) with (S (length ws)). lia.
    + rewrite Hlw. unfold s1. simpl last_wp.
      destruct ws as [|w' ws']; [reflexivity|].
      simpl map. rewrite (last_nonempty_default _ (cv w') _ (last_wp self)).
      reflexivity.
    + intros _. destruct ws as [|w' ws'].
      * reflexivity.
      * apply Hls. discriminate.
Qed.

(** Once the counter has reached the threshold, every further equal label
    publishes on its own tick. *)
Lemma feed_ticks_committed (v : pyval) :
  forall (ws : list Z) (self : TLDetector),
    py_eq (state self) v = true ->
    STATE_COUNT_THRESHOLD <= state_count self ->
    feed_ticks self (map (fun w => (w, v)) ws) =
      map (fun w => [Publish (if py_eq v (PyInt RED) then w else -1)]) ws.
Proof.
  induction ws as [|w ws IH]; intros self Hs Hc; [reflexivity|].
  simpl map. simpl feed_ticks.
  rewrite (debounce_commit self w v Hs Hc). cbv zeta. cbn [fst snd].
  rewrite IH; [reflexivity | exact Hs | simpl; lia].
Qed.

(** X1.  A run of equal labels, whatever the label.  From a detector whose
    pending state differs from [v], feeding [v] with candidates
    [w0, w1, w2, ws...]: the first tick publishes nothing, the second and
    the third each republish the waypoint published before, and every
    later tick publishes its own candidate when [v] is red and [-1]
    otherwise.  The counter ends at the length of the run, and the
    committed state becomes [v] with the fourth observation. *)
Theorem filter_on_equal_labels
  (self : TLDetector) (v : pyval) (w0 w1 w2 : Z) (ws : list Z) :
  py_eq (state self) v = false ->
  let cv := fun w => if py_eq v (PyInt RED) then w else -1 in
  let obs := (w0, v) :: (w1, v) :: (w2, v) :: map (fun w => (w, v)) ws in
  feed_ticks self obs =
    [] :: [Publish (last_wp self)] :: [Publish (last_wp self)]
       :: map (fun w => [Publish (cv w)]) ws /\
  state (fst (feed self obs)) = v /\
  state_count (fst (feed self obs)) = 3 + Z.of_nat (length ws) /\
  last_wp (fst (feed self obs)) = last (map cv ws) (last_wp self) /\
  (ws = [] -> last_state (fst (feed self obs)) = last_state self) /\
  (ws <> [] -> last_state (fst (feed self obs)) = v).
Proof.
  intros Hne cv obs. unfold obs.
  set (s1 := bump (set_state (set_state_count self 0) v)).
  assert (Hv : py_eq v v = true) by apply py_eq_refl.
  assert (H1 : debounce self w0 v = (s1, [])).
  { exact (debounce_change self w0 v Hne). }
  assert (H2 : debounce s1 w1 v = (bump s1, [Publish (last_wp self)])).
  { rewrite (debounce_below s1 w1 v); [reflexivity | exact Hv |].
    unfold s1, STATE_COUNT_THRESHOLD. simpl. lia. }
  assert (H3 : debounce (bump s1) w2 v
               = (bump (bump s1), [Publish (last_wp self)])).
  { rewrite (debounce_below (bump s1) w2 v); [reflexivity | exact Hv |].
    unfold s1, STATE_COUNT_THRESHOLD. simpl. lia. }
  set (s3 := bump (bump s1)) in *.
  assert (Hs3 : py_eq (state s3) v = true) by exact Hv.
  assert (Hc3 : STATE_COUNT_THRESHOLD <= state_count s3).
  { unfold s3, s1, STATE_COUNT_THRESHOLD. simpl. lia. }
  split.
  - simpl feed_ticks. rewrite H1. cbn [fst snd]. rewrite H2. cbn [fst snd].
    rewrite H3. cbn [fst snd].
    rewrite (feed_ticks_committed v ws s3 Hs3 Hc3). reflexivity.
  - rewrite feed_cons, H1. cbn [fst snd].
    rewrite feed_cons, H2. cbn [fst snd].
    rewrite feed_cons, H3. cbn [fst snd].
    destruct (feed_committed v ws s3 Hs3 Hc3) as (_ & Hst & Hcnt & Hlw & Hls).
    split; [|split; [|split; [|split]]].
    + rewrite Hst. reflexivity.
    + rewrite Hcnt. unfold s3, s1. simpl. lia.
    + rewrite Hlw. reflexivity.
    + intros Hnil. subst ws. reflexivity.
    + intros Hnn. rewrite (Hls Hnn). reflexivity.
Qed.

(** ** What the scan can return, with no assumption on the lists *)

Lemma scan_lights_sound (tree : KDTree) (stops : list (list Q)) (n V : Z) :
  forall (ls pre : list TrafficLightMsg) (acc sc : Scan),
    scan_sound tree stops (pre ++ ls) n V acc ->
    diff acc <= n ->
    scan_lights tree stops V (length pre) ls acc = inr sc ->
    scan_sound tree stops (pre ++ ls) n V sc /\ diff sc <= n.
Proof.
  induction ls as [|light ls IH]; intros pre acc sc Hacc Hd Hrun.
  - simpl in Hrun. injection Hrun as <-. split; assumption.
  - simpl in Hrun.
    destruct (nth_error stops (length pre)) as [line|] eqn:Hline;
      [|discriminate Hrun].
    destruct (stop_ordinal tree line) as [W|] eqn:Hord; [|discriminate Hrun].
    replace (pre ++ light :: ls) with ((pre ++ [light]) ++ ls) in *
      by (rewrite <- app_assoc; reflexivity).
    replace (S (length pre)) with (length (pre ++ [light])) in Hrun
      by (rewrite length_app; simpl; lia).
    refine (IH (pre ++ [light]) _ sc _ _ Hrun).
    + unfold scan_step.
      destruct ((0 <=? _) && (_ <? diff acc)) eqn:Hc; [|exact Hacc].
      apply andb_true_iff in Hc. destruct Hc as [H0 H1].
      apply Z.leb_le in H0. apply Z.ltb_lt in H1.
      unfold scan_sound. simpl.
      exists (length pre), line.
      split.
      { rewrite <- app_assoc. rewrite nth_error_app2 by lia.
        rewrite Nat.sub_diag. reflexivity. }
      split; [exact Hline|]. split; [exact Hord|]. split; [reflexivity|].
      split; [exact H0|]. lia.
    + unfold scan_step.
      destruct ((0 <=? _) && (_ <? diff acc)) eqn:Hc; [|exact Hd].
      apply andb_true_iff in Hc. destruct Hc as [_ H1].
      apply Z.ltb_lt in H1. simpl. lia.
Qed.

(** X2.  Whatever the lists are, a stop line that the scan returns is the
    projection of the stop line stored at the position of the returned
    light, it is not behind the vehicle, it is at most [H] ahead, and its
    distance ahead is below the initial bound [n] (the length of the
    stored route). *)
Theorem locate_sound
  (H : Z) (tree : KDTree) (stops : list (list Q)) (ls : list TrafficLightMsg)
  (n V idx : Z) (light : TrafficLightMsg) :
  locate H tree stops ls n V = inr (Some (idx, light)) ->
  exists j line,
    nth_error ls j = Some light /\ nth_error stops j = Some line /\
    stop_ordinal tree line = Some idx /\
    0 <= idx - V /\ idx - V <= H /\ idx - V < n.
Proof.
  unfold locate. intros Hloc.
  set (init := {| diff := n; closest_light := None; line_wp_idx := None |}) in *.
  destruct (scan_lights tree stops V 0 ls init) as [e|sc] eqn:Hrun;
    [discriminate Hloc|].
  assert (Hs : scan_sound tree stops ([] ++ ls) n V sc /\ diff sc <= n).
  { apply (scan_lights_sound tree stops n V ls [] init sc).
    - exact I.
    - simpl. lia.
    - exact Hrun. }
  destruct Hs as [Hs _]. simpl app in Hs. unfold scan_sound in Hs.
  destruct (closest_light sc) as [l|], (line_wp_idx sc) as [i|];
    try contradiction; try discriminate Hloc.
  destruct (i - V <=? H) eqn:Hh; [|discriminate Hloc].
  injection Hloc as <- <-. apply Z.leb_le in Hh.
  destruct Hs as (j & line & Hl & Hst & Hi & _ & H0 & Hn).
  exists j, line. repeat split; assumption.
Qed.

(** The scan raises nothing but [IndexError]. *)
Lemma locate_raises (H : Z) (tree : KDTree) (stops : list (list Q))
  (ls : list TrafficLightMsg) (n V : Z) (e : exn) :
  locate H tree stops ls n V = inl e ->
  e = IndexError /\ visited_pairs tree stops 0 ls = None.
Proof.
  intros Hloc.
  pose proof (locate_outcome H tree stops ls n V) as Ho.
  destruct (visited_pairs tree stops 0 ls) as [pairs|].
  - destruct Ho as [r Hr]. rewrite Hr in Hloc. discriminate Hloc.
  - rewrite Ho in Hloc. injection Hloc as <-. split; reflexivity.
Qed.

(** ** The route attributes over a whole run *)

Lemma run_app (es es' : list event) (self : TLDetector) :
  run self (es ++ es') = run (run self es) es'.
Proof.
  revert self. induction es as [|e es IH]; intros self; simpl;
    [reflexivity | apply IH].
Qed.

(** Every delivery keeps the route attributes consistent and, once the
    tree exists, leaves the tree and [waypoints_2d] as they are. *)
Lemma dispatch_route_consistent (self : TLDetector) (e : event) :
  route_consistent self ->
  route_consistent (st (dispatch self e)) /\
  (forall tree, waypoint_tree self = Some tree ->
     waypoint_tree (st (dispatch self e)) = Some tree /\
     waypoints_2d (st (dispatch self e)) = waypoints_2d self).
Proof.
  unfold route_consistent. intros Hc.
  destruct e as [msg|msg|msg|msg t1 t2]; simpl.
  - split; [exact Hc|]. intros tree Ht. split; [exact Ht | reflexivity].
  - unfold waypoints_cb. simpl.
    destruct (waypoint_tree self) as [tree|] eqn:Ht.
    + destruct Hc as (H2 & Hne & Hw). rewrite H2.
      destruct (data tree) as [|p ps] eqn:Hd; [contradiction Hne; reflexivity|].
      simpl. rewrite Ht. split.
      * split; [congruence|]. split; [rewrite Hd; discriminate | discriminate].
      * intros tree' Ht'. split; [exact Ht' | congruence].
    + destruct (truthy_list (waypoints_2d self)); simpl.
      * rewrite Ht. split; [exact I|]. intros tree' Ht'. discriminate Ht'.
      * destruct (lane_waypoints msg) as [|w ws]; simpl.
        -- rewrite Ht. split; [exact I|]. intros tree' Ht'. discriminate Ht'.
        -- split; [|intros tree' Ht'; discriminate Ht'].
           split; [reflexivity|]. split; discriminate.
  - split; [exact Hc|]. intros tree Ht. split; [exact Ht | reflexivity].
  - destruct (image_cb_keeps_inputs self msg t1 t2)
      as (_ & Hw & _ & H2 & Ht & _).
    rewrite Ht, H2, Hw. split; [exact Hc|].
    intros tree Ht'. split; [exact Ht' | reflexivity].
Qed.

Lemma run_route_consistent (es : list event) (self : TLDetector) :
  route_consistent self ->
  route_consistent (run self es) /\
  (forall tree, waypoint_tree self = Some tree ->
     waypoint_tree (run self es) = Some tree /\
     waypoints_2d (run self es) = waypoints_2d self).
Proof.
  revert self. induction es as [|e es IH]; intros self Hc; simpl.
  - split; [exact Hc|]. intros tree Ht. split; [exact Ht | reflexivity].
  - destruct (dispatch_route_consistent self e Hc) as [Hc' Hk].
    destruct (IH _ Hc') as [Hc'' Hk'].
    split; [exact Hc''|]. intros tree Ht.
    destruct (Hk tree Ht) as [Ht1 H21].
    destruct (Hk' tree Ht1) as [Ht2 H22].
    split; [exact Ht2 | congruence].
Qed.

Lemma init_route_consistent (cfg : Config) : route_consistent (init_state cfg).
Proof. exact I. Qed.

(** X3.  The index is written once.  If after some deliveries the tree is
    built, then after any further deliveries - routes included - the node
    holds the same tree; [waypoints_2d] is the tree's point set, which is
    not empty, and a route message is stored. *)
Theorem index_is_write_once
  (cfg : Config) (es es' : list event) (tree : KDTree) :
  waypoint_tree (run (init_state cfg) es) = Some tree ->
  let s := run (init_state cfg) (es ++ es') in
  waypoint_tree s = Some tree /\
  waypoints_2d s = Some (data tree) /\
  data tree <> [] /\
  waypoints s <> None.
Proof.
  intros Ht s. unfold s. rewrite run_app.
  destruct (run_route_consistent es (init_state cfg) (init_route_consistent cfg))
    as [Hc _].
  destruct (run_route_consistent es' _ Hc) as [Hc' Hk].
  destruct (Hk tree Ht) as [Ht' _].
  unfold route_consistent in Hc'. rewrite Ht' in Hc'.
  destruct Hc' as (H2 & Hne & Hw).
  repeat split; assumption.
Qed.

(** X4.  Routes while the index is not built.  An empty route raises
    [ValueError] and leaves the tree unbuilt; it is stored as
    [self.waypoints] and [waypoints_2d] is left as the empty list.  A
    non-empty route delivered afterwards is not blocked by that: it builds
    the tree over the coordinates of its waypoints, in route order, one
    point per waypoint. *)
Theorem empty_route_then_retry
  (self : TLDetector) (wps wps' : Lane) :
  waypoint_tree self = None ->
  truthy_list (waypoints_2d self) = false ->
  lane_waypoints wps = [] ->
  lane_waypoints wps' <> [] ->
  let r1 := waypoints_cb self wps in
  let r2 := waypoints_cb (st r1) wps' in
  let pts := map (fun w => (wpt_x w, wpt_y w)) (lane_waypoints wps') in
  raised r1 = Some ValueError /\
  trace r1 = [] /\
  waypoint_tree (st r1) = None /\
  waypoints_2d (st r1) = Some [] /\
  waypoints (st r1) = Some wps /\
  raised r2 = None /\
  trace r2 = [] /\
  waypoint_tree (st r2) = Some {| data := pts |} /\
  waypoints_2d (st r2) = Some pts /\
  waypoints (st r2) = Some wps' /\
  length pts = length (lane_waypoints wps').
Proof.
  intros Ht Htr He Hne r1 r2 pts.
  assert (H1 : r1 = {| st := set_waypoints_2d (set_waypoints self (Some wps))
                              (Some []);
                       trace := []; raised := Some ValueError |}).
  { unfold r1, waypoints_cb. simpl. rewrite Htr, He. reflexivity. }
  assert (H2 : r2 = done (set_waypoint_tree
                            (set_waypoints_2d
                               (set_waypoints (st r1) (Some wps')) (Some pts))
                            (Some {| data := pts |}))).
  { unfold r2. rewrite H1. unfold waypoints_cb. simpl. fold pts.
    unfold pts. destruct (lane_waypoints wps') as [|w ws];
      [contradiction Hne; reflexivity | reflexivity]. }
  rewrite H2. rewrite H1. simpl.
  repeat split; try assumption. unfold pts. apply length_map.
Qed.

(** ** Before the index exists *)

(** X5.  As long as no non-empty route has been delivered, the node is
    inert towards the outside: whatever poses, light lists, empty routes
    and images arrive, nothing is published, nothing is classified, the
    tree stays unbuilt, and images neither move the frame gate nor reach
    the state-count filter. *)
Theorem no_output_before_index (es : list event) :
  forall self : TLDetector,
    waypoint_tree self = None ->
    (forall w, In (WaypointsEv w) es -> lane_waypoints w = []) ->
    run_trace self es = [] /\
    waypoint_tree (run self es) = None /\
    last_img_processed (run self es) = last_img_processed self /\
    has_image (run self es) = has_image self /\
    state_count (run self es) = state_count self /\
    state (run self es) = state self.
Proof.
  induction es as [|e es IH]; intros self Ht Hw; simpl.
  - repeat split. exact Ht.
  - assert (Hstep : trace (dispatch self e) = [] /\
                    waypoint_tree (st (dispatch self e)) = None /\
                    last_img_processed (st (dispatch self e)) =
                      last_img_processed self /\
                    has_image (st (dispatch self e)) = has_image self /\
                    state_count (st (dispatch self e)) = state_count self /\
                    state (st (dispatch self e)) = state self).
    { destruct e as [msg|msg|msg|msg t1 t2]; simpl.
      - repeat split. exact Ht.
      - unfold waypoints_cb. simpl.
        destruct (truthy_list (waypoints_2d self)); simpl.
        + repeat split. exact Ht.
        + rewrite (Hw msg (or_introl eq_refl)). simpl. repeat split. exact Ht.
      - repeat split. exact Ht.
      - rewrite (image_cb_not_built self msg t1 t2 Ht). simpl.
        repeat split. exact Ht. }
    destruct Hstep as (Htr & Ht' & Hl & Hh & Hc & Hs).
    destruct (IH (st (dispatch self e)) Ht'
                (fun w Hin => Hw w (or_intror Hin)))
      as (Htr' & Ht'' & Hl' & Hh' & Hc' & Hs').
    rewrite Htr, Htr'. repeat split; congruence.
Qed.

(** ** The frame gate across other deliveries *)

Lemma run_no_image_keeps_clock (es : list event) :
  forall self : TLDetector,
    (forall e, In e es -> is_image e = false) ->
    last_img_processed (run self es) = last_img_processed self.
Proof.
  induction es as [|e es IH]; intros self Hn; simpl; [reflexivity|].
  rewrite IH by (intros e' He'; apply Hn; right; exact He').
  specialize (Hn e (or_introl eq_refl)).
  destruct e as [msg|msg|msg|msg t1 t2]; simpl.
  - reflexivity.
  - unfold waypoints_cb. destruct (negb _); [|reflexivity].
    destruct (KDTree_new _); reflexivity.
  - reflexivity.
  - discriminate Hn.
Qed.

(** X6.  After a frame has been taken and [last_img_processed] set to the
    clock reading [t2] of line 94, an image whose reading [t1'] gives an
    elapsed time below [CAMERA_IMG_PROCESS_RATE] - the double-precision
    difference [t1' - t2] of line 86 - is dropped without any effect,
    whatever poses, routes and light lists were delivered in between. *)
Theorem frame_dropped_within_interval
  (self : TLDetector) (msg msg' : Image) (t1 t2 t1' t2' : Q)
  (tree : KDTree) (es : list event) :
  waypoint_tree self = Some tree ->
  (CAMERA_IMG_PROCESS_RATE <= float_sub t1 (last_img_processed self))%Q ->
  (forall e, In e es -> is_image e = false) ->
  (float_sub t1' t2 < CAMERA_IMG_PROCESS_RATE)%Q ->
  let s := run (st (image_cb self msg t1 t2)) es in
  dispatch s (ImageEv msg' t1' t2') = done s.
Proof.
  intros Ht Hg Hn Hsoon s. simpl. apply image_cb_too_soon.
  unfold s. rewrite (run_no_image_keeps_clock es _ Hn).
  destruct (image_cb_taken_marks_rounded self msg t1 t2 tree Ht Hg)
    as (_ & _ & Hl).
  rewrite Hl. exact Hsoon.
Qed.

(** ** How much one image can cause *)

Lemma classified_app (a b : list effect) :
  classified (a ++ b) = classified a ++ classified b.
Proof.
  induction a as [|[v|img] a IH]; simpl; [reflexivity|exact IH|].
  rewrite IH. reflexivity.
Qed.

(** An image leads to at most one classification, of that very image and
    before anything is published, and to at most one published value. *)
Lemma image_cb_effects (self : TLDetector) (msg : Image) (t1 t2 : Q) :
  let r := image_cb self msg t1 t2 in
  (classified (trace r) = [] \/ classified (trace r) = [msg]) /\
  (length (published (trace r)) <= 1)%nat /\
  (raised r <> None -> published (trace r) = []).
Proof.
  unfold image_cb.
  destruct (waypoint_tree self) as [tree|];
    [|simpl; split; [left; reflexivity | split; [lia | reflexivity]]].
  destruct (Qlt_bool _ _);
    [simpl; split; [left; reflexivity | split; [lia | reflexivity]]|].
  set (s := accept_frame self msg t2).
  assert (Hptl : (classified (snd (fst (process_traffic_lights s))) = [] \/
                  classified (snd (fst (process_traffic_lights s))) = [msg]) /\
                 published (snd (fst (process_traffic_lights s))) = []).
  { split; [|exact (proj2 (process_traffic_lights_writes s))].
    unfold process_traffic_lights.
    destruct (pose s); [|left; reflexivity].
    destruct (waypoint_tree s); [|left; reflexivity].
    destruct (waypoints s); [|left; reflexivity].
    destruct (locate _ _ _ _ _ _) as [e|[[idx light]|]];
      try (left; reflexivity).
    destruct (get_light_state_has_image s light msg eq_refl eq_refl)
      as (Htr & _ & _).
    destruct (get_light_state s light) as [[s' tr] [e|v]]; simpl in *;
      right; rewrite Htr; reflexivity. }
  destruct Hptl as [Hc Hp].
  destruct (process_traffic_lights s) as [[s' tr] [e|[w v]]]; simpl in Hc, Hp.
  - simpl. rewrite Hp. split; [exact Hc|]. split; [simpl; lia | reflexivity].
  - assert (Hd : classified (snd (debounce s' w v)) = [] /\
                 (length (published (snd (debounce s' w v))) <= 1)%nat).
    { destruct (debounce_trace s' w v) as [H|[x H]]; rewrite H; simpl;
        split; try reflexivity; lia. }
    destruct (debounce s' w v) as [s'' tr'']. simpl in Hd. simpl.
    rewrite classified_app, published_app, Hp, (proj1 Hd), app_nil_r.
    split; [exact Hc|]. split; [exact (proj2 Hd)|].
    intros Hr. contradiction Hr. reflexivity.
Qed.

(** X7.  Over any run from any state, the node publishes at most as many
    values, and classifies at most as many images, as image messages were
    delivered. *)
Theorem effects_bounded_by_images (es : list event) :
  forall self : TLDetector,
    (length (published (run_trace self es)) <= length (filter is_image es))%nat /\
    (length (classified (run_trace self es)) <= length (filter is_image es))%nat.
Proof.
  induction es as [|e es IH]; intros self; simpl; [split; lia|].
  destruct (IH (st (dispatch self e))) as [IHp IHc].
  rewrite published_app, classified_app, !length_app.
  destruct e as [msg|msg|msg|msg t1 t2]; simpl is_image; cbv iota.
  - simpl. split; assumption.
  - assert (Htr : trace (waypoints_cb self msg) = []).
    { unfold waypoints_cb. destruct (negb _); [|reflexivity].
      destruct (KDTree_new _); reflexivity. }
    simpl dispatch. rewrite Htr. simpl. split; assumption.
  - simpl. split; assumption.
  - simpl dispatch in *.
    destruct (image_cb_effects self msg t1 t2) as (Hc & Hp & _).
    simpl length. split; [lia|].
    destruct Hc as [Hc|Hc]; rewrite Hc; simpl; lia.
Qed.

(** ** When a tick fails *)

(** X8.  An image tick that raises [IndexError] in the stop-line scan
    publishes nothing, classifies nothing and leaves the state-count
    filter untouched, but the frame is consumed: the node is left exactly
    in the state of lines 90-94, with [has_image] set, the image stored
    and the frame gate moved to the clock reading of line 94. *)
Theorem image_tick_failure
  (self : TLDetector) (msg : Image) (t1 t2 : Q) :
  let r := image_cb self msg t1 t2 in
  raised r = Some IndexError ->
  trace r = [] /\
  st r = accept_frame self msg t2 /\
  last_img_processed (st r) = t2 /\
  filter_fields (st r) = filter_fields self.
Proof.
  intros r Hr.
  assert (H : trace r = [] /\ st r = accept_frame self msg t2).
  { unfold r, image_cb in *.
    destruct (waypoint_tree self) as [tree|] eqn:Ht; [|discriminate Hr].
    destruct (Qlt_bool _ _); [discriminate Hr|].
    unfold process_traffic_lights in *.
    replace (pose (accept_frame self msg t2)) with (pose self) in *
      by reflexivity.
    replace (waypoint_tree (accept_frame self msg t2))
      with (waypoint_tree self) in * by reflexivity.
    replace (waypoints (accept_frame self msg t2)) with (waypoints self) in *
      by reflexivity.
    rewrite Ht in *.
    destruct (pose self) as [p|].
    - destruct (waypoints self) as [lane|]; [|discriminate Hr].
      destruct (locate _ _ _ _ _ _) as [e'|[[idx light]|]] eqn:Hloc.
      + split; reflexivity.
      + destruct (get_light_state_has_image (accept_frame self msg t2) light
                    msg eq_refl eq_refl) as (_ & Hv & _).
        destruct (get_light_state (accept_frame self msg t2) light)
          as [[s' tr] [e'|v]]; simpl in Hv; [discriminate Hv|].
        destruct (debounce s' idx v). discriminate Hr.
      + destruct (debounce _ _ _). discriminate Hr.
    - destruct (debounce _ _ _). discriminate Hr. }
  destruct H as [Htr Hst]. rewrite Hst.
  repeat split. exact Htr.
Qed.

(** ** No lights known *)

(** X9.  In every reachable state with the tree built and an empty light
    list (none delivered yet, or an empty array), a taken frame finds no
    candidate whatever stop lines are configured: nothing is raised,
    nothing is classified, and [(-1, UNKNOWN)] goes through the filter. *)
Theorem no_lights_no_candidate
  (cfg : Config) (es : list event) (msg : Image) (t1 t2 : Q) (tree : KDTree) :
  let s := run (init_state cfg) es in
  let r := image_cb s msg t1 t2 in
  waypoint_tree s = Some tree ->
  lights s = [] ->
  (CAMERA_IMG_PROCESS_RATE <= t1 - last_img_processed s)%Q ->
  raised r = None /\
  classified (trace r) = [] /\
  st r = fst (debounce (accept_frame s msg t2) (-1) (PyInt UNKNOWN)) /\
  trace r = snd (debounce (accept_frame s msg t2) (-1) (PyInt UNKNOWN)).
Proof.
  intros s r Ht Hl Hg.
  destruct (run_route_consistent es (init_state cfg) (init_route_consistent cfg))
    as [Hc _]. fold s in Hc. unfold route_consistent in Hc. rewrite Ht in Hc.
  destruct Hc as (_ & _ & Hw).
  assert (Hptl : process_traffic_lights (accept_frame s msg t2) =
                 (accept_frame s msg t2, [], inr (-1, PyInt UNKNOWN))).
  { unfold process_traffic_lights.
    replace (pose (accept_frame s msg t2)) with (pose s) by reflexivity.
    replace (waypoint_tree (accept_frame s msg t2)) with (waypoint_tree s)
      by reflexivity.
    replace (waypoints (accept_frame s msg t2)) with (waypoints s)
      by reflexivity.
    replace (lights (accept_frame s msg t2)) with (lights s) by reflexivity.
    rewrite Ht, Hl.
    destruct (pose s) as [p|]; [|reflexivity].
    destruct (waypoints s) as [lane|]; [|contradiction Hw; reflexivity].
    reflexivity. }
  unfold r. rewrite (image_cb_taken s msg t1 t2 tree Ht Hg). rewrite Hptl.
  simpl. repeat split.
  destruct (debounce_trace (accept_frame s msg t2) (-1) (PyInt UNKNOWN))
    as [H|[x H]]; rewrite H; reflexivity.
Qed.

(** ** The pipeline with a located stop line is the filter *)

(** The filter reads and writes its four attributes only. *)
Lemma debounce_fields (s s' : TLDetector) (w : Z) (v : pyval) :
  filter_fields s = filter_fields s' ->
  filter_fields (fst (debounce s w v)) = filter_fields (fst (debounce s' w v)) /\
  snd (debounce s w v) = snd (debounce s' w v).
Proof.
  unfold filter_fields. intros H. injection H as Hs Hc Hls Hlw.
  unfold debounce. rewrite Hs, Hc.
  destruct (negb (py_eq (state s') v)); simpl.
  - rewrite Hls, Hlw. split; reflexivity.
  - destruct (STATE_COUNT_THRESHOLD <=? state_count s'); simpl.
    + rewrite Hs, Hc. split; reflexivity.
    + rewrite Hs, Hc, Hls, Hlw. split; reflexivity.
Qed.

Lemma feed_fields (obs : list (Z * pyval)) :
  forall s s' : TLDetector,
    filter_fields s = filter_fields s' ->
    filter_fields (fst (feed s obs)) = filter_fields (fst (feed s' obs)) /\
    snd (feed s obs) = snd (feed s' obs).
Proof.
  induction obs as [|[w v] obs IH]; intros s s' H.
  - simpl. split; [exact H | reflexivity].
  - rewrite !feed_cons. cbn [fst snd].
    destruct (debounce_fields s s' w v H) as [Hf Ht].
    destruct (IH _ _ Hf) as [Hf' Ht'].
    split; [exact Hf'|]. rewrite Ht, Ht'. reflexivity.
Qed.

(** One taken frame with a located stop line: the classifier runs on that
    frame and its label goes through the filter with the stop line's
    ordinal as candidate; the stop line stays located afterwards. *)
Lemma located_tick
  (self : TLDetector) (idx : Z) (msg : Image) (t1 t2 : Q) :
  located self idx ->
  (CAMERA_IMG_PROCESS_RATE <= t1 - last_img_processed self)%Q ->
  let r := image_cb self msg t1 t2 in
  let v := PyInt (get_classification msg) in
  located (st r) idx /\
  last_img_processed (st r) = t2 /\
  raised r = None /\
  classified (trace r) = [msg] /\
  published (trace r) = published (snd (debounce self idx v)) /\
  filter_fields (st r) = filter_fields (fst (debounce self idx v)).
Proof.
  intros (tree & p & lane & light & Ht & Hp & Hw & Hloc) Hg r v.
  destruct (image_cb_keeps_inputs self msg t1 t2)
    as (Kp & Kw & Kl & _ & Kt & Kc). fold r in Kp, Kw, Kl, Kt, Kc.
  destruct (image_cb_taken_marks self msg t1 t2 tree Ht Hg) as (_ & _ & Hlast).
  fold r in Hlast.
  split.
  { exists tree, p, lane, light. rewrite Kt, Kp, Kw, Kc, Kl.
    repeat split; assumption. }
  split; [exact Hlast|].
  unfold r. rewrite (image_cb_taken self msg t1 t2 tree Ht Hg).
  set (s := accept_frame self msg t2).
  assert (Hptl : exists s', process_traffic_lights s =
                              (s', [Classify msg], inr (idx, v)) /\
                            filter_fields s' = filter_fields self).
  { unfold process_traffic_lights.
    replace (pose s) with (pose self) by reflexivity.
    replace (waypoint_tree s) with (waypoint_tree self) by reflexivity.
    replace (waypoints s) with (waypoints self) by reflexivity.
    replace (config s) with (config self) by reflexivity.
    replace (lights s) with (lights self) by reflexivity.
    rewrite Hp, Ht, Hw, Hloc.
    destruct (get_light_state_has_image s light msg eq_refl eq_refl)
      as (Htr & Hv & _).
    destruct (get_light_state_writes s light) as (lls & plc & Hs').
    destruct (get_light_state s light) as [[s' tr] [e|v']]; simpl in *;
      [discriminate Hv|].
    injection Hv as ->. subst tr. exists s'. split; [reflexivity|].
    rewrite Hs'. reflexivity. }
  destruct Hptl as (s' & Hptl & Hf). rewrite Hptl.
  destruct (debounce_fields s' self idx v Hf) as [Hf' Htr'].
  cbn [st trace raised]. rewrite Htr'.
  split; [reflexivity|]. split; [|split; [reflexivity | exact Hf']].
  rewrite classified_app. simpl.
  destruct (debounce_trace self idx v) as [H|[x H]]; rewrite H; reflexivity.
Qed.

(** X10.  With pose and route known and a stop line located at ordinal
    [idx], a sequence of frames that all pass the frame gate is handled
    exactly as the state-count filter fed with the classifier's labels
    and [idx] as candidate: the same values are published in the same
    order, each frame is classified once, nothing is raised along the way
    and the filter ends in the same state. *)
Theorem pipeline_is_filter (idx : Z) (fs : list (Image * Q * Q)) :
  forall self : TLDetector,
    located self idx ->
    gate_open_for (last_img_processed self) fs ->
    let obs := map (fun f => (idx, PyInt (get_classification (fst (fst f))))) fs in
    let es := map frame_event fs in
    published (run_trace self es) = published (snd (feed self obs)) /\
    classified (run_trace self es) = map (fun f => fst (fst f)) fs /\
    filter_fields (run self es) = filter_fields (fst (feed self obs)).
Proof.
  induction fs as [|[[msg t1] t2] fs IH]; intros self Hloc Hg obs es.
  - simpl. repeat split.
  - destruct Hg as [Hg1 Hg2]. simpl in Hg1, Hg2.
    destruct (located_tick self idx msg t1 t2 Hloc Hg1)
      as (Hloc' & Hlast & _ & Hcl & Hpub & Hf).
    rewrite <- Hlast in Hg2.
    destruct (IH _ Hloc' Hg2) as (IHp & IHc & IHf).
    unfold obs, es.
    change (map frame_event ((msg, t1, t2) :: fs))
      with (ImageEv msg t1 t2 :: map frame_event fs).
    change (map (fun f => (idx, PyInt (get_classification (fst (fst f)))))
              ((msg, t1, t2) :: fs))
      with ((idx, PyInt (get_classification msg))
              :: map (fun f => (idx, PyInt (get_classification (fst (fst f)))))
                   fs).
    rewrite feed_cons. cbn [fst snd run_trace run dispatch].
    destruct (feed_fields
                (map (fun f => (idx, PyInt (get_classification (fst (fst f))))) fs)
                _ _ Hf) as [Hff Hft].
    rewrite !published_app, !classified_app.
    rewrite Hcl, Hpub, IHp, IHc, IHf, Hft, Hff.
    repeat split.
Qed.

End Further.

(** * Concrete runs

    The properties above applied to the stand-ins of [Sim], and the runs
    on which the specification's wording and the code part ways. *)

Section Runs.
#[local] Existing Instance Sim.ext.
Import Sim.

(** ** C1 *)

(** C1 fails as stated: from the freshly started detector, threshold 3,
    three reds with candidate 120.  The third observation publishes [-1],
    not 120, and the committed state is still [UNKNOWN]. *)
Lemma three_reds_do_not_commit :
  let red := PyInt RED in
  let s0 := init_state cfg1 in
  let s1 := fst (debounce s0 120 red) in
  let s2 := fst (debounce s1 120 red) in
  let s3 := fst (debounce s2 120 red) in
  STATE_COUNT_THRESHOLD = 3 /\
  last_state s0 = PyInt UNKNOWN /\
  snd (debounce s2 120 red) = [Publish (-1)] /\
  snd (debounce s2 120 red) <> [Publish 120] /\
  last_state s3 = PyInt UNKNOWN /\
  py_eq (last_state s3) red = false.
Proof.
  repeat split; try reflexivity. intros H. discriminate H.
Qed.

Lemma red_commits_on_fourth_observation_witness :
  let red := PyInt RED in
  let s0 := init_state cfg1 in
  let s1 := fst (debounce s0 120 red) in
  let s2 := fst (debounce s1 120 red) in
  let s3 := fst (debounce s2 120 red) in
  let s4 := fst (debounce s3 120 red) in
  py_eq (state s0) red = false /\
  snd (debounce s2 120 red) = [Publish (-1)] /\
  snd (debounce s3 120 red) = [Publish 120] /\
  last_state s4 = red.
Proof.
  intros red s0 s1 s2 s3 s4.
  split; [reflexivity|].
  destruct (red_commits_on_fourth_observation s0 120 120 120 120 eq_refl)
    as (_ & H3 & _ & _ & H4 & H5 & _).
  split; [exact H3|]. split; [exact H4 | exact H5].
Defined.

(** ** C2 *)

(** C2 at its failing input: route, pose and lights are known, the first
    frame is taken and classified red while the pending state is
    [UNKNOWN].  The tick reaches the filter (the classifier ran, nothing
    was raised) and publishes nothing; the previous decision, [-1], is not
    republished. *)
Lemma state_change_tick_publishes_nothing :
  let r := dispatch driving (frame 0 1) in
  state driving = PyInt UNKNOWN /\
  last_wp driving = -1 /\
  raised r = None /\
  classified (trace r) = [0] /\
  state (st r) = PyInt RED /\
  published (trace r) = [].
Proof. vm_compute. repeat split. Qed.

(** ** C3 *)

(** C3 fails as stated: the very first gated frame, with the clock
    reading 0.25, is dropped. *)
Lemma first_frame_can_be_dropped :
  let r := image_cb routed 0 (1 # 4) (1 # 4) in
  last_img_processed routed = 0%Q /\
  waypoint_tree routed = Some tree10 /\
  r = done routed /\
  has_image (st r) = false /\
  last_img_processed (st r) <> (1 # 4)%Q.
Proof.
  assert (Hr : image_cb routed 0 (1 # 4) (1 # 4) = done routed)
    by (vm_compute; reflexivity).
  intros r. unfold r. rewrite Hr.
  split; [reflexivity|]. split; [reflexivity|]. split; [reflexivity|].
  split; [reflexivity|]. intros H. discriminate H.
Qed.

Lemma frame_gate_decides_witness :
  waypoint_tree routed = Some tree10 /\
  (CAMERA_IMG_PROCESS_RATE <= float_sub 1 (last_img_processed routed))%Q /\
  has_image (st (image_cb routed 0 1 2)) = true /\
  last_img_processed (st (image_cb routed 0 1 2)) = 2%Q /\
  (float_sub (1 # 4) (last_img_processed routed) < CAMERA_IMG_PROCESS_RATE)%Q /\
  image_cb routed 0 (1 # 4) (1 # 4) = done routed.
Proof.
  assert (Hg : (CAMERA_IMG_PROCESS_RATE
                <= float_sub 1 (last_img_processed routed))%Q).
  { unfold Qle. vm_compute. intros H. discriminate H. }
  assert (Hs : (float_sub (1 # 4) (last_img_processed routed)
                < CAMERA_IMG_PROCESS_RATE)%Q).
  { unfold Qlt. vm_compute. reflexivity. }
  split; [reflexivity|]. split; [exact Hg|].
  destruct (frame_gate_decides routed 0 1 2 tree10 eq_refl) as (Ha & _ & _).
  destruct (Ha Hg) as (H1 & _ & H3).
  split; [exact H1|]. split; [exact H3|]. split; [exact Hs|].
  destruct (frame_gate_decides routed 0 (1 # 4) (1 # 4) tree10 eq_refl)
    as (_ & Hb & _).
  exact (Hb Hs).
Defined.

(** Where rounding decides: with the gate last moved at [0.0625 + 2^-56]
    and the clock reading 0.5625, the exact difference is below the rate,
    the difference of the two doubles is exactly the rate, and the frame
    is taken. *)
Example gate_rounds_the_elapsed_time :
  ((9 # 16) - edge_reading < CAMERA_IMG_PROCESS_RATE)%Q /\
  (float_sub (9 # 16) edge_reading == CAMERA_IMG_PROCESS_RATE)%Q /\
  has_image (st (image_cb routed_edge 0 (9 # 16) (9 # 16))) = true /\
  last_img_processed (st (image_cb routed_edge 0 (9 # 16) (9 # 16)))
    = (9 # 16)%Q.
Proof.
  split; [unfold Qlt; vm_compute; reflexivity|].
  split; [unfold Qeq; vm_compute; reflexivity|].
  vm_compute. split; reflexivity.
Qed.

(** ** C4 *)

(** C4 fails as stated: the index is built, the gate is open, the pose was
    never delivered - and the tick publishes [-1] and moves the gate. *)
Lemma unknown_pose_tick_publishes :
  let r := image_cb routed 0 1 1 in
  pose routed = None /\
  waypoint_tree routed = Some tree10 /\
  (CAMERA_IMG_PROCESS_RATE <= 1 - last_img_processed routed)%Q /\
  published (trace r) = [-1] /\
  last_img_processed (st r) = 1%Q /\
  state_count (st r) = 1.
Proof.
  split; [reflexivity|]. split; [reflexivity|].
  split; [unfold Qle; simpl; lia|].
  vm_compute. repeat split.
Qed.

Lemma unknown_pose_feeds_unknown_witness :
  let r := image_cb routed 0 1 1 in
  pose routed = None /\
  raised r = None /\
  classified (trace r) = [] /\
  (trace r = [Publish (-1)] \/ trace r = [Publish (last_wp routed)]).
Proof.
  intros r. split; [reflexivity|].
  assert (Hg : (CAMERA_IMG_PROCESS_RATE <= 1 - last_img_processed routed)%Q).
  { unfold Qle. simpl. lia. }
  destruct (unknown_pose_feeds_unknown routed 0 1 1 tree10 eq_refl eq_refl Hg)
    as (H1 & H2 & _ & _ & H5).
  split; [exact H1|]. split; [exact H2|]. apply H5. reflexivity.
Defined.

(** ** C5 *)

(** C5 fails as stated, for vehicle ordinal 2, horizon 300 and a stop line
    at ordinal 5 (3 ahead).  After the three-waypoint route has replaced
    the stored one the scan starts from the bound 3 and returns none; with
    a farther stop line listed first and a single light only the first
    stop line is looked at and 8 is returned; with no light delivered yet
    nothing is looked at. *)
Lemma locate_misses_nearest_stop_line :
  let s' := st (waypoints_cb driving route3) in
  stop_ordinal tree10 [5; 0]%Q = Some 5 /\
  stop_ordinal tree10 [8; 0]%Q = Some 8 /\
  waypoint_tree s' = Some tree10 /\
  waypoints s' = Some route3 /\
  locate WAYPOINT_DIFFERENCE tree10 (stop_line_positions cfg1) [light1] 3 2
    = inr None /\
  snd (process_traffic_lights (accept_frame s' 0 1))
    = inr (-1, PyInt UNKNOWN) /\
  locate WAYPOINT_DIFFERENCE tree10 two_stops [light1] 10 2
    = inr (Some (8, light1)) /\
  locate WAYPOINT_DIFFERENCE tree10 (stop_line_positions cfg1) [] 10 2
    = inr None.
Proof. vm_compute. repeat split. Qed.

Lemma locate_nearest_visited_witness :
  visited_pairs tree10 (stop_line_positions cfg1) 0 [light1]
    = Some [(light1, 5)] /\
  (exists r,
     locate WAYPOINT_DIFFERENCE tree10 (stop_line_positions cfg1) [light1] 10 2
       = inr r /\
     match r with
     | Some (W, light) =>
         In (light, W) [(light1, 5)] /\
         0 <= W - 2 <= WAYPOINT_DIFFERENCE /\ W - 2 < 10 /\
         forall p, In p [(light1, 5)] -> 0 <= snd p - 2 -> W - 2 <= snd p - 2
     | None =>
         (forall p, In p [(light1, 5)] -> snd p - 2 < 0 \/ 10 <= snd p - 2) \/
         (exists p, In p [(light1, 5)] /\ 0 <= snd p - 2 < 10 /\
                    WAYPOINT_DIFFERENCE < snd p - 2 /\
                    forall p', In p' [(light1, 5)] -> 0 <= snd p' - 2 ->
                               snd p - 2 <= snd p' - 2)
     end) /\
  visited_pairs tree10 (stop_line_positions cfg_short) 0 [light1] = None /\
  locate WAYPOINT_DIFFERENCE tree10 (stop_line_positions cfg_short) [light1] 10 2
    = inl IndexError.
Proof.
  split; [reflexivity|]. split.
  - exact (locate_nearest_visited WAYPOINT_DIFFERENCE tree10
             (stop_line_positions cfg1) [light1] 10 2).
  - split; [reflexivity|].
    exact (locate_nearest_visited WAYPOINT_DIFFERENCE tree10
             (stop_line_positions cfg_short) [light1] 10 2).
Defined.

(** The horizon boundary on the same data: the stop line is 3 ahead. *)
Example horizon_boundary :
  locate 3 tree10 (stop_line_positions cfg1) [light1] 10 2
    = inr (Some (5, light1)) /\
  locate 2 tree10 (stop_line_positions cfg1) [light1] 10 2 = inr None /\
  locate 3 tree10 (stop_line_positions cfg1) [light1] 10 6 = inr None.
Proof. repeat split. Qed.

(** ** C6 *)

Lemma waypoint_published_only_under_red_witness :
  let es := ready ++ [frame 0 1; frame 0 2; frame 0 3] in
  let r := dispatch (run (init_state cfg1) es) (frame 0 4) in
  In 5 (published (trace r)) /\
  (5 = -1 \/ py_eq (last_state (st r)) (PyInt RED) = true).
Proof.
  intros es r.
  assert (Hin : In 5 (published (trace r))).
  { vm_compute. left. reflexivity. }
  split; [exact Hin|].
  exact (waypoint_published_only_under_red cfg1 es (frame 0 4) 5 Hin).
Defined.

(** ** C7 *)

(** C7 fails as stated: a configuration with no stop line is accepted at
    start-up, and with one light known the first taken frame raises
    [IndexError] inside [process_traffic_lights]. *)
Lemma short_stop_line_list_fails_at_run_time :
  let r := dispatch driving0 (frame 0 1) in
  TLDetector_init cfg0 = inr (init_state cfg0) /\
  (length (stop_line_positions cfg0) < length (lights driving0))%nat /\
  raised r = Some IndexError /\
  published (trace r) = [].
Proof.
  split; [reflexivity|]. split; [simpl; lia|].
  vm_compute. split; reflexivity.
Qed.

Lemma stop_line_indexing_witness :
  waypoint_tree driving0 = Some tree10 /\
  pose driving0 = Some pose2 /\
  waypoints driving0 = Some route10 /\
  (CAMERA_IMG_PROCESS_RATE <= 1 - last_img_processed driving0)%Q /\
  raised (image_cb driving0 0 1 1) = Some IndexError /\
  raised (image_cb driving_short 0 1 1) = Some IndexError /\
  raised (image_cb driving 0 1 1) = None.
Proof.
  assert (Hg : (CAMERA_IMG_PROCESS_RATE <= 1 - 0)%Q).
  { unfold Qle. simpl. lia. }
  split; [reflexivity|]. split; [reflexivity|]. split; [reflexivity|].
  split; [exact Hg|]. split; [|split].
  - destruct (stop_line_indexing driving0 0 1 1 tree10 pose2 route10
                eq_refl eq_refl eq_refl Hg) as (_ & Hbad & _).
    apply Hbad. simpl. lia.
  - destruct (stop_line_indexing driving_short 0 1 1 tree10 pose2 route10
                eq_refl eq_refl eq_refl Hg) as (_ & _ & Hshort & _).
    apply (Hshort 0%nat [5]%Q); [simpl; lia | reflexivity | simpl; lia].
  - destruct (stop_line_indexing driving 0 1 1 tree10 pose2 route10
                eq_refl eq_refl eq_refl Hg) as (_ & _ & _ & Hok).
    apply Hok; [simpl; lia|].
    intros [|j] line Hj Hn; simpl in Hj, Hn; [|lia].
    injection Hn as <-. simpl. lia.
Defined.

(** ** C9 *)

(** C9 fails as stated: with the tree built from the ten-waypoint route, a
    second route update is not ignored.  It replaces the stored route, and
    the same four red frames that end in publishing waypoint 5 now publish
    [-1] throughout, because the scan starts from the new route's length. *)
Lemma route_update_not_ignored :
  let s' := st (waypoints_cb driving route3) in
  waypoint_tree driving = Some tree10 /\
  waypoints driving = Some route10 /\
  waypoints s' = Some route3 /\
  s' <> driving /\
  published (run_trace driving four_red) = [-1; -1; 5] /\
  published (run_trace s' four_red) = [-1; -1; -1; -1].
Proof.
  split; [reflexivity|]. split; [reflexivity|]. split; [reflexivity|].
  split.
  - intros H. apply (f_equal waypoints) in H. discriminate H.
  - vm_compute. split; reflexivity.
Qed.

Lemma route_update_after_build_witness :
  let r := waypoints_cb driving route3 in
  waypoint_tree driving = Some tree10 /\
  raised r = None /\
  st r = set_waypoints driving (Some route3) /\
  waypoint_tree (st r) = Some tree10 /\
  waypoints_2d (st r) = waypoints_2d driving /\
  st (waypoints_cb driving route10) = driving.
Proof.
  intros r. split; [reflexivity|].
  destruct (route_update_after_build cfg1 ready route3 tree10 eq_refl)
    as (H1 & _ & H3 & H4 & H5 & _).
  split; [exact H1|]. split; [exact H3|]. split; [exact H4|].
  split; [exact H5|].
  destruct (route_update_after_build cfg1 ready route10 tree10 eq_refl)
    as (_ & _ & _ & _ & _ & H6).
  apply H6. reflexivity.
Defined.

(** ** C10 *)

Lemma get_light_state_returns_classification_witness :
  let s := accept_frame driving 0 1 in
  snd (get_light_state s light1) = inr (PyInt 0) /\
  snd (process_traffic_lights s) = inr (5, PyInt 0) /\
  (PyInt 0 = PyInt UNKNOWN \/ PyInt 0 = PyInt (get_classification 0)).
Proof.
  intros s.
  destruct (get_light_state_returns_classification driving 0 1 light1)
    as (_ & H2 & _ & H4 & _).
  split; [exact H2|].
  assert (Hp : snd (process_traffic_lights s) = inr (5, PyInt 0))
    by reflexivity.
  split; [exact Hp|]. exact (H4 5 (PyInt 0) Hp).
Defined.

End Runs.

(** * Concrete runs for the further properties *)

Section FurtherRuns.
#[local] Existing Instance Sim.ext.
Import Sim.

Lemma filter_on_equal_labels_witness :
  let green := PyInt 2 in
  let obs := [(7, green); (7, green); (7, green); (8, green); (9, green)] in
  py_eq (state (init_state cfg1)) green = false /\
  feed_ticks (init_state cfg1) obs
    = [[]; [Publish (-1)]; [Publish (-1)]; [Publish (-1)]; [Publish (-1)]] /\
  state_count (fst (feed (init_state cfg1) obs)) = 5 /\
  last_state (fst (feed (init_state cfg1) obs)) = green.
Proof.
  intros green obs.
  assert (Hne : py_eq (state (init_state cfg1)) green = false) by reflexivity.
  split; [exact Hne|].
  destruct (filter_on_equal_labels (init_state cfg1) green 7 7 7 [8; 9] Hne)
    as (Hp & _ & Hc & _ & _ & Hl).
  split; [exact Hp|]. split; [exact Hc|]. apply Hl. discriminate.
Defined.

Lemma locate_sound_witness :
  locate WAYPOINT_DIFFERENCE tree10 (stop_line_positions cfg1) [light1] 10 2
    = inr (Some (5, light1)) /\
  exists j line,
    nth_error [light1] j = Some light1 /\
    nth_error (stop_line_positions cfg1) j = Some line /\
    stop_ordinal tree10 line = Some 5 /\
    0 <= 5 - 2 /\ 5 - 2 <= WAYPOINT_DIFFERENCE /\ 5 - 2 < 10.
Proof.
  split; [reflexivity|].
  exact (locate_sound WAYPOINT_DIFFERENCE tree10 (stop_line_positions cfg1)
           [light1] 10 2 5 light1 eq_refl).
Defined.

Lemma index_is_write_once_witness :
  let later := [WaypointsEv route3; frame 0 1; WaypointsEv route0] in
  waypoint_tree (run (init_state cfg1) ready) = Some tree10 /\
  waypoint_tree (run (init_state cfg1) (ready ++ later)) = Some tree10 /\
  waypoints_2d (run (init_state cfg1) (ready ++ later)) = Some (data tree10).
Proof.
  intros later. split; [reflexivity|].
  destruct (index_is_write_once cfg1 ready later tree10 eq_refl)
    as (H1 & H2 & _).
  split; [exact H1 | exact H2].
Defined.

Lemma empty_route_then_retry_witness :
  let s0 := init_state cfg1 in
  let r1 := waypoints_cb s0 route0 in
  let r2 := waypoints_cb (st r1) route3 in
  waypoint_tree s0 = None /\
  lane_waypoints route3 <> [] /\
  raised r1 = Some ValueError /\
  waypoints_2d (st r1) = Some [] /\
  raised r2 = None /\
  waypoint_tree (st r2) = Some {| data := [(0, 0); (1, 0); (2, 0)]%Q |}.
Proof.
  intros s0 r1 r2.
  assert (Hne : lane_waypoints route3 <> []) by discriminate.
  split; [reflexivity|]. split; [exact Hne|].
  destruct (empty_route_then_retry s0 route0 route3 eq_refl eq_refl eq_refl Hne)
    as (H1 & _ & _ & H4 & _ & H6 & _ & H8 & _).
  split; [exact H1|]. split; [exact H4|]. split; [exact H6 | exact H8].
Defined.

Lemma no_output_before_index_witness :
  (forall w, In (WaypointsEv w) idle -> lane_waypoints w = []) /\
  run_trace (init_state cfg1) idle = [] /\
  waypoint_tree (run (init_state cfg1) idle) = None /\
  last_img_processed (run (init_state cfg1) idle) = 0%Q.
Proof.
  assert (Hw : forall w, In (WaypointsEv w) idle -> lane_waypoints w = []).
  { intros w [H|[H|[H|[H|[]]]]]; try discriminate H.
    injection H as <-. reflexivity. }
  split; [exact Hw|].
  destruct (no_output_before_index idle (init_state cfg1) eq_refl Hw)
    as (H1 & H2 & H3 & _).
  split; [exact H1|]. split; [exact H2 | exact H3].
Defined.

Lemma frame_dropped_within_interval_witness :
  let s := run (st (image_cb routed 0 1 1)) [PoseEv pose2; TrafficEv [light1]] in
  waypoint_tree routed = Some tree10 /\
  (CAMERA_IMG_PROCESS_RATE <= float_sub 1 (last_img_processed routed))%Q /\
  (float_sub (5 # 4) 1 < CAMERA_IMG_PROCESS_RATE)%Q /\
  dispatch s (ImageEv 0 (5 # 4) (5 # 4)) = done s.
Proof.
  intros s.
  assert (Hg : (CAMERA_IMG_PROCESS_RATE
                <= float_sub 1 (last_img_processed routed))%Q).
  { unfold Qle. vm_compute. intros H. discriminate H. }
  assert (Hsoon : (float_sub (5 # 4) 1 < CAMERA_IMG_PROCESS_RATE)%Q).
  { unfold Qlt. vm_compute. reflexivity. }
  split; [reflexivity|]. split; [exact Hg|]. split; [exact Hsoon|].
  apply (frame_dropped_within_interval routed 0 0 1 1 (5 # 4) (5 # 4) tree10
           [PoseEv pose2; TrafficEv [light1]] eq_refl Hg).
  - intros e [H|[H|[]]]; subst e; reflexivity.
  - exact Hsoon.
Defined.

Lemma image_tick_failure_witness :
  let r := image_cb driving_short 0 1 1 in
  raised r = Some IndexError /\
  trace r = [] /\
  st r = accept_frame driving_short 0 1 /\
  last_img_processed (st r) = 1%Q.
Proof.
  intros r.
  assert (Hr : raised r = Some IndexError) by (vm_compute; reflexivity).
  split; [exact Hr|].
  destruct (@image_tick_failure ext driving_short 0 1 1 Hr)
    as (H1 & H2 & H3 & _).
  split; [exact H1|]. split; [exact H2 | exact H3].
Defined.

Lemma no_lights_no_candidate_witness :
  let s := run (init_state cfg1) [WaypointsEv route10; PoseEv pose2] in
  let r := image_cb s 0 1 1 in
  waypoint_tree s = Some tree10 /\
  lights s = [] /\
  pose s = Some pose2 /\
  raised r = None /\
  classified (trace r) = [] /\
  trace r = snd (debounce (accept_frame s 0 1) (-1) (PyInt UNKNOWN)).
Proof.
  intros s r.
  assert (Hg : (CAMERA_IMG_PROCESS_RATE <= 1 - last_img_processed s)%Q).
  { unfold Qle. simpl. lia. }
  split; [reflexivity|]. split; [reflexivity|]. split; [reflexivity|].
  destruct (@no_lights_no_candidate ext cfg1 [WaypointsEv route10; PoseEv pose2]
              0 1 1 tree10 eq_refl eq_refl Hg) as (H1 & H2 & _ & H4).
  split; [exact H1|]. split; [exact H2 | exact H4].
Defined.

Lemma pipeline_is_filter_witness :
  let obs := [(5, PyInt 0); (5, PyInt 0); (5, PyInt 0); (5, PyInt 0)] in
  located driving 5 /\
  gate_open_for (last_img_processed driving) red_frames /\
  published (run_trace driving (map frame_event red_frames))
    = published (snd (feed driving obs)) /\
  published (snd (feed driving obs)) = [-1; -1; 5].
Proof.
  intros obs.
  assert (Hloc : located driving 5).
  { exists tree10, pose2, route10, light1. repeat split. }
  assert (Hg : gate_open_for (last_img_processed driving) red_frames).
  { simpl. unfold Qle. simpl. repeat split; lia. }
  split; [exact Hloc|]. split; [exact Hg|].
  destruct (pipeline_is_filter 5 red_frames driving Hloc Hg) as (H1 & _ & _).
  split; [exact H1 | reflexivity].
Defined.

End FurtherRuns.
